(** * Field metadata and the generic CRUD repository

    A shallow embedding of
    - [src/infrastructure/decorators/fields/BaseField.ts] (module [Meta]),
    - [PrimaryKeyField] (module [Meta]),
    - the two versions of the [CrudRepository] class found in the sources
      (modules [Repository], the one with the save/delete hooks, and
      [SaveRepository], the one of
      [src/infrastructure/repositories/CrudRepository.ts], built around
      [save]/[saveInternal]),
    together with the properties stated about them. *)

From stdpp Require Import gmap strings list fin_maps pretty.
From Stdlib Require Import ZArith.


(* ===================================================================== *)
(** ** JavaScript values, objects and exceptions *)
(* ===================================================================== *)

Module Js.

(** A JavaScript value.  An object literal is a finite map from property
    names to values; a missing property reads as [VUndefined]. *)
#[warnings="-register-all"]
Inductive value : Type :=
  | VUndefined
  | VNull
  | VBool (b : bool)
  | VNum (n : Z)
  | VStr (s : string)
  | VObj (m : gmap string value)
  | VArr (l : list value).

Global Instance value_eq_dec : EqDecision value.
Proof.
  refine (fix go (v1 v2 : value) {struct v1} : Decision (v1 = v2) :=
    let _ : EqDecision value := @go in
    match v1, v2 with
    | VUndefined, VUndefined => left _
    | VNull, VNull => left _
    | VBool a, VBool b => cast_if (decide (a = b))
    | VNum a, VNum b => cast_if (decide (a = b))
    | VStr a, VStr b => cast_if (decide (a = b))
    | VObj a, VObj b => cast_if (decide (a = b))
    | VArr a, VArr b => cast_if (decide (a = b))
    | _, _ => right _
    end); abstract congruence.
Defined.

(** Own properties of a plain object. *)
Abbreviation props := (gmap string value).

(** [o.k] on a non-null object. *)
Definition get (o : props) (k : string) : value := default VUndefined (o !! k).

(** ToBoolean. *)
Definition truthy (v : value) : bool :=
  match v with
  | VUndefined | VNull => false
  | VBool b => b
  | VNum n => negb (Z.eqb n 0)
  | VStr s => negb (bool_decide (s = ""))
  | VObj _ | VArr _ => true
  end.

(** [a || b]. *)
Definition js_or (a b : value) : value := if truthy a then a else b.

(** [Object.prototype.hasOwnProperty] on a plain object. *)
Definition hasOwnProperty (o : props) (k : string) : bool :=
  bool_decide (is_Some (o !! k)).



Definition is_dot (a : Ascii.ascii) : bool := Nat.eqb (Ascii.nat_of_ascii a) 46.

(** [k.split('.')] *)
Fixpoint split_dots (k : string) : list string :=
  match k with
  | EmptyString => [""]
  | String a k' =>
      if is_dot a then "" :: split_dots k'
      else match split_dots k' with
           | [] => [String a ""]
           | seg :: segs => String a seg :: segs
           end
  end.

(** The own properties of a value, as [hasOwnProperty] sees them after
    boxing: the keys of an object, the indices and [length] of an array or
    of a string (of ASCII characters); a number or a boolean has none. *)
Definition own_property (v : value) (k : string) : option value :=
  match v with
  | VObj m => m !! k
  | VArr l =>
      if bool_decide (k = "length") then Some (VNum (Z.of_nat (length l)))
      else head (omap (λ i, if bool_decide (k = pretty i) then l !! i else None)
                      (seq 0 (length l)))
  | VStr s =>
      if bool_decide (k = "length") then Some (VNum (Z.of_nat (String.length s)))
      else head (omap (λ i, if bool_decide (k = pretty i)
                            then (λ a, VStr (String a "")) <$> String.get i s
                            else None)
                      (seq 0 (String.length s)))
  | _ => None
  end.

(** The loop of lodash's [hasPath] with [baseHas]: every key of the path
    is an own property of the value reached so far. *)
Fixpoint has_path (v : value) (path : list string) : bool :=
  match path with
  | [] => false
  | k :: rest =>
      match own_property v k with
      | None => false
      | Some v' => match rest with
                   | [] => true
                   | _ :: _ => has_path v' rest
                   end
      end
  end.

(** lodash's [_.has(object, key)] for a string key without bracket, on an
    object none of whose inherited properties has a dot in its name: a key
    without dot, or one that is a property of the object, is looked up as it
    is; any other key is split at its dots and followed as a path. *)
Definition has_dotted (o : props) (k : string) : bool :=
  if forallb (λ a, negb (is_dot a)) (String.list_ascii_of_string k)
     || hasOwnProperty o k
  then hasOwnProperty o k
  else has_path (VObj o) (split_dots k).

(** Number::toString on an integer: in decimal below 10^21; from there on
    the engine prints an exponent notation, which is left to
    [exponent_notation]. *)
Definition number_to_string (exponent_notation : Z → string) (n : Z) : string :=
  if (Z.abs n <? 10 ^ 21)%Z then pretty n else exponent_notation n.

(** Exceptions. [TypeError] is what the engine raises on a property read
    of [null]/[undefined]; [Error] is [new Error(msg)]; [MustBeEntityError]
    is what the ORM rejects a value that is not an entity with. *)
Inductive exn : Type :=
  | TypeError (msg : string)
  | Error (msg : string)
  | MustBeEntityError (operation : string) (wrongValue : value).

Inductive result (A : Type) : Type :=
  | Ok (a : A)
  | Throw (e : exn).
Arguments Ok {A} a.
Arguments Throw {A} e.

Definition rbind {A B} (r : result A) (f : A → result B) : result B :=
  match r with
  | Ok a => f a
  | Throw e => Throw e
  end.

(** [o.k] where [o] may be [null] ([None]). *)
Definition read (o : option props) (k : string) : result value :=
  match o with
  | Some p => Ok (get p k)
  | None => Throw (TypeError ("Cannot read properties of null (reading '" +:+ k +:+ "')"))
  end.

(** [{...o}]: spreading [null] contributes no property. *)
Definition spread (o : option props) : props := default ∅ o.

(** A function argument that the caller may leave out. A default
    parameter value replaces an omitted argument only, an explicit [null]
    is kept. *)
Inductive arg (A : Type) : Type :=
  | Omitted
  | Given (a : A).
Arguments Omitted {A}.
Arguments Given {A} a.

Definition or_default {A} (a : arg A) (d : A) : A :=
  match a with
  | Omitted => d
  | Given x => x
  end.

(** [Array.prototype.filter] with a callback that may throw. *)
Fixpoint filterR {A} (f : A → result bool) (l : list A) : result (list A) :=
  match l with
  | [] => Ok []
  | x :: l' =>
      rbind (f x) (λ b,
      rbind (filterR f l') (λ r,
      Ok (if b then x :: r else r)))
  end.

(** ToString, as a template literal and a computed property key apply it.
    [Array.prototype.toString] joins the elements with a comma, [null] and
    [undefined] elements giving the empty string. *)
Fixpoint to_string (exponent_notation : Z → string) (v : value) : string :=
  match v with
  | VUndefined => "undefined"
  | VNull => "null"
  | VBool b => if b then "true" else "false"
  | VNum n => number_to_string exponent_notation n
  | VStr s => s
  | VObj _ => "[object Object]"
  | VArr l =>
      (fix join (l : list value) : string :=
         match l with
         | [] => ""
         | x :: l' =>
             let sx := match x with
                       | VUndefined | VNull => ""
                       | _ => to_string exponent_notation x
                       end in
             match l' with
             | [] => sx
             | _ :: _ => sx +:+ "," +:+ join l'
             end
         end) l
  end.

End Js.

(* ===================================================================== *)
(** ** [BaseField.ts]: the field metadata store and the field decorators *)
(* ===================================================================== *)

Module Meta.
Import Js.

(** A prototype object, named by the path of class names from the class
    itself up to the root: [["Child"; "Parent"]] is [Child.prototype], whose
    prototype is [["Parent"]], whose prototype is [[]] ([Object.prototype]).
    A class is identified with its [prototype] object. *)
Abbreviation proto := (list string).

(** The part of the [reflect-metadata] registry that [BaseField.ts] uses.
    [Reflect.defineMetadata] stores a value as own metadata of an object (and
    a property); the value stored under [STEROIDS_META_KEYS] is an array,
    kept by reference: [meta_keys] holds the reference and [arrays] the
    arrays themselves, so that two objects may hold the same array. *)
Record MetaStore : Type := mkMetaStore {
  meta_field : gmap (proto * string) props;     (* STEROIDS_META_FIELD *)
  meta_decorator : gmap (proto * string) value; (* STEROIDS_META_FIELD_DECORATOR *)
  meta_keys : gmap proto nat;                   (* STEROIDS_META_KEYS *)
  arrays : list (list string)
}.

Definition empty_store : MetaStore := mkMetaStore ∅ ∅ ∅ [].

(** [Reflect.getMetadata]: own metadata first, then the prototype chain. *)
Fixpoint OrdinaryGetMetadata {V} (own : proto → option V) (o : proto) : option V :=
  match own o with
  | Some v => Some v
  | None =>
      match o with
      | [] => None
      | _ :: parent => OrdinaryGetMetadata own parent
      end
  end.

Definition getMetadata_FIELD (s : MetaStore) (o : proto) (p : string) : option props :=
  OrdinaryGetMetadata (λ o', meta_field s !! (o', p)) o.

Definition getMetadata_DECORATOR (s : MetaStore) (o : proto) (p : string) : option value :=
  OrdinaryGetMetadata (λ o', meta_decorator s !! (o', p)) o.

Definition getMetadata_KEYS (s : MetaStore) (o : proto) : option nat :=
  OrdinaryGetMetadata (λ o', meta_keys s !! o') o.

(** The array behind a reference. *)
Definition array_at (s : MetaStore) (r : nat) : list string :=
  default [] (arrays s !! r).

Definition getFieldOptions (s : MetaStore) (targetClass : proto) (fieldName : string)
    : option props :=
  getMetadata_FIELD s targetClass fieldName.

Definition isMetaClass (s : MetaStore) (MetaClass : proto) : bool :=
  bool_decide (is_Some (getMetadata_KEYS s MetaClass)).

Definition getMetaFields (s : MetaStore) (MetaClass : proto) : list string :=
  match getMetadata_KEYS s MetaClass with
  | Some r => array_at s r
  | None => []
  end.

(** [['relationId', 'relation'].includes(v)]. *)
Definition is_relation_type (v : value) : bool :=
  bool_decide (v = VStr "relationId") || bool_decide (v = VStr "relation").

(** The callback of the [filter] in [getMetaRelations]: [options] is
    [undefined] when the field has no descriptor, and reading [appType] of it
    throws. *)
Definition relation_test (s : MetaStore) (MetaClass : proto) (fieldName : string)
    : result bool :=
  match getFieldOptions s MetaClass fieldName with
  | Some options => Ok (is_relation_type (get options "appType"))
  | None => Throw (TypeError "Cannot read properties of undefined (reading 'appType')")
  end.

Definition getMetaRelations (s : MetaStore) (MetaClass : proto) : result (list string) :=
  filterR (relation_test s MetaClass) (getMetaFields s MetaClass).

(** [fieldNames.push(propertyName)] on the array behind [r]. *)
Definition array_push (r : nat) (x : string) (s : MetaStore) : MetaStore :=
  mkMetaStore (meta_field s) (meta_decorator s) (meta_keys s)
              (<[r := array_at s r ++ [x]]> (arrays s)).

(** [ColumnMetaDecorator(options, internalOptions)(object, propertyName)]. *)
Definition ColumnMetaDecorator (options internalOptions : props)
    (object : proto) (propertyName : string) (s : MetaStore) : MetaStore :=
  let s := mkMetaStore (<[(object, propertyName) := options]> (meta_field s))
                       (meta_decorator s) (meta_keys s) (arrays s) in
  let s := mkMetaStore (meta_field s)
                       (<[(object, propertyName) := get internalOptions "decoratorName"]>
                          (meta_decorator s))
                       (meta_keys s) (arrays s) in
  (* const fieldNames = Reflect.getMetadata(STEROIDS_META_KEYS, object) || [] *)
  let '(fieldNames, s) :=
    match getMetadata_KEYS s object with
    | Some r => (r, s)
    | None => (length (arrays s),
               mkMetaStore (meta_field s) (meta_decorator s) (meta_keys s)
                           (arrays s ++ [[]]))
    end in
  let s := array_push fieldNames propertyName s in
  mkMetaStore (meta_field s) (meta_decorator s)
              (<[object := fieldNames]> (meta_keys s)) (arrays s).

(** The decorators that [BaseField] and [PrimaryKeyField] compose. Those of
    the host framework and of the ORM are kept as data. *)
#[warnings="-register-all"]
Inductive decorator : Type :=
  | DColumnMeta (options internalOptions : props)
  | DApiProperty (config : props)
  | DIsNotEmpty
  | DPrimaryGeneratedColumn (config : props)
  | DApply (ds : list decorator).           (* applyDecorators(...ds) *)

(** Running a decorator on [(object, propertyName)]: only
    [ColumnMetaDecorator] writes to the field metadata store. *)
Fixpoint decorate (d : decorator) (object : proto) (propertyName : string)
    (s : MetaStore) : MetaStore :=
  match d with
  | DColumnMeta options internalOptions =>
      ColumnMetaDecorator options internalOptions object propertyName s
  | DApply ds =>
      (fix go (ds : list decorator) (s : MetaStore) : MetaStore :=
         match ds with
         | [] => s
         | d :: ds' => go ds' (decorate d object propertyName s)
         end) ds s
  | _ => s
  end.

(** [BaseField(options = null, internalOptions = {})]. The elements of the
    array literal are evaluated in order. *)
Definition BaseField (options internalOptions : arg (option props)) : result decorator :=
  let options := or_default options None in
  let internalOptions := or_default internalOptions (Some ∅) in
  rbind (read internalOptions "isArray") (λ i_isArray,
  rbind (read internalOptions "appType") (λ i_appType,
  let meta :=
    DColumnMeta
      (<["appType" := js_or i_appType VNull]>
       (<["isArray" := js_or i_isArray VNull]>
        (spread options ∪
         <["label" := VNull]> (<["hint" := VNull]> (<["items" := VNull]> ∅)))))
      (spread internalOptions) in
  rbind (read options "jsType") (λ jsType,
  rbind (read options "label") (λ label,
  rbind (read options "example") (λ example,
  rbind (read options "nullable") (λ nullable,
  rbind (read options "isArray") (λ isArray,
  let api :=
    DApiProperty
      (<["type" := jsType]>
       (<["description" := js_or label VUndefined]>
        (<["example" := js_or example VUndefined]>
         (<["required" := VBool (bool_decide (nullable = VBool false))]>
          (<["isArray" := isArray]> ∅))))) in
  rbind (read options "required") (λ required,
  (* [options.required && IsNotEmpty()], then [.filter(Boolean)] *)
  Ok (DApply ([meta; api] ++ (if truthy required then [DIsNotEmpty] else []))))))))))).

(** [PrimaryKeyField(options = {})]. *)
Definition PrimaryKeyField (options : arg (option props)) : result decorator :=
  let options := or_default options (Some ∅) in
  rbind (read options "label") (λ label,
  let options :=
    if truthy label then spread options
    else <["label" := VStr "ИД"]> (spread options) in
  rbind (BaseField
           (Given (Some (<["appType" := VStr "primaryKey"]>
                         (<["decoratorName" := VStr "PrimaryKeyField"]> options))))
           Omitted) (λ base,
  Ok (DApply [base; DPrimaryGeneratedColumn (<["type" := VStr "integer"]> ∅)]))).

(** [getFieldDecorator(targetClass, fieldName)]. The module [./index] is
    not part of the sources: [index] gives, for a property name, what reading
    that property of its exports yields when it is truthy. *)
Definition getFieldDecorator {D : Type} (exponent_notation : Z → string)
    (index : string → option D) (s : MetaStore)
    (targetClass : proto) (fieldName : string) : result D :=
  let decoratorName :=
    default VUndefined (getMetadata_DECORATOR s targetClass fieldName) in
  match index (to_string exponent_notation decoratorName) with
  | Some decorator => Ok decorator
  | None =>
      Throw (Error ("Not found Field decorator "
                    +:+ to_string exponent_notation decoratorName
                    +:+ ", property: " +:+ fieldName))
  end.

End Meta.

(* ===================================================================== *)
(** ** The persistence layer the repository consumes *)
(* ===================================================================== *)

Module Orm.
Import Js Meta.

(** A model instance: its class and its own properties. Relation
    sub-objects are nested values of [obj_props]. *)
Record jsobj : Type := mkObj {
  obj_proto : proto;
  obj_props : props
}.

(** Model instances are passed by reference. *)
Abbreviation loc := nat.

(** Modelled from the spec: [SearchQuery] (usecases/base/SearchQuery.ts is
    not part of the sources): a value object bundling the filter condition
    and the relations to load; sort and pagination play no role here. The
    condition is the flat form of [ICondition], a mapping of field to value
    read as a conjunction of equalities. *)
Record SearchQuery : Type := mkQuery {
  condition : props;
  relations : list string
}.

Definition new_SearchQuery : SearchQuery := mkQuery ∅ [].

Inductive manager : Type :=
  | DefaultManager     (* this.dbRepository.manager *)
  | TxManager.         (* the manager handed to a transaction callback *)

(** What an execution does, in order: the calls that reach the persistence
    layer and the hook invocations (with the objects they receive, as they
    are at the time of the call). *)
Inductive event : Type :=
  | EGetOne (q : SearchQuery)
  | EGetMany (q : SearchQuery)
  | ESave (m : manager) (entity : props)
  | ERemove (m : manager) (target : value)
  | ETxBegin
  | ETxCommit
  | ETxRollback
  | EBeforeSave (prevModel : option jsobj) (nextModel : jsobj)
  | EAfterSave (prevModel : option jsobj) (nextModel : jsobj)
  | EBeforeDelete (id : Z)
  | EAfterDelete (id : Z).

(** The state a repository call runs in: the model objects allocated so
    far and one table with a generated primary column. *)
Record state : Type := mkState {
  heap : list jsobj;
  pk_col : string;
  rows : list props;
  next_id : Z
}.

Record outcome (A : Type) : Type := mkOutcome {
  o_trace : list event;
  o_state : state;
  o_res : result A
}.
Arguments mkOutcome {A} _ _ _.
Arguments o_trace {A} _.
Arguments o_state {A} _.
Arguments o_res {A} _.

(** An [async] computation, run to completion: it may change the state,
    appends to the trace, and returns or throws. The state reached when it
    throws is kept. *)
Definition M (A : Type) : Type := state → outcome A.

Definition ret {A} (a : A) : M A := λ st, mkOutcome [] st (Ok a).

Definition throw {A} (e : exn) : M A := λ st, mkOutcome [] st (Throw e).

(** What happened before [o], put in front of its trace. *)
Definition prepend {A} (t : list event) (o : outcome A) : outcome A :=
  mkOutcome (t ++ o_trace o) (o_state o) (o_res o).

Definition bind {A B} (m : M A) (f : A → M B) : M B := λ st,
  let o := m st in
  match o_res o with
  | Ok a => prepend (o_trace o) (f a (o_state o))
  | Throw e => mkOutcome (o_trace o) (o_state o) (Throw e)
  end.

Global Instance M_ret : MRet M := @ret.
Global Instance M_bind : MBind M := λ A B f m, bind m f.

Definition lift {A} (r : result A) : M A := λ st, mkOutcome [] st r.

Definition emit (e : event) : M unit := λ st, mkOutcome [e] st (Ok tt).

Definition gets {A} (f : state → A) : M A := λ st, mkOutcome [] st (Ok (f st)).

Definition modify (f : state → state) : M unit := λ st, mkOutcome [] (f st) (Ok tt).

Fixpoint mapM {A B} (f : A → M B) (l : list A) : M (list B) :=
  match l with
  | [] => ret []
  | x :: l' => y ← f x; ys ← mapM f l'; ret (y :: ys)
  end.

(** *** Objects *)

Definition set_heap (h : list jsobj) (st : state) : state :=
  mkState h (pk_col st) (rows st) (next_id st).

Definition set_rows (r : list props) (st : state) : state :=
  mkState (heap st) (pk_col st) r (next_id st).

Definition alloc (o : jsobj) : M loc := λ st,
  mkOutcome [] (set_heap (heap st ++ [o]) st) (Ok (length (heap st))).

Definition deref (l : loc) : M jsobj := λ st,
  match heap st !! l with
  | Some o => mkOutcome [] st (Ok o)
  | None => mkOutcome [] st (Throw (TypeError "not an object"))
  end.

Definition deref_opt (l : option loc) : M (option jsobj) :=
  match l with
  | Some l => o ← deref l; ret (Some o)
  | None => ret None
  end.

(** [target[k] = v] *)
Definition assign (target : loc) (k : string) (v : value) : M unit :=
  o ← deref target;
  modify (λ st, set_heap (<[target := mkObj (obj_proto o) (<[k := v]> (obj_props o))]> (heap st)) st).

(** lodash's [_.cloneDeep]: a new object of the same class with a copy of
    every property. *)
Definition cloneDeep (l : loc) : M loc :=
  o ← deref l; alloc (mkObj (obj_proto o) (obj_props o)).

(** *** The table *)

(** Modelled from the spec: the flat form of a condition
    (usecases/helpers/ConditionHelper.ts is not part of the sources), a
    mapping of field to value read as a conjunction of equalities. *)
Definition matches (cond row : props) : bool :=
  bool_decide (map_Forall (λ k v, row !! k = Some v) cond).

Definition select (q : SearchQuery) (st : state) : list props :=
  List.filter (matches (condition q)) (rows st).

(** [dbQuery.getOne()] and [dbQuery.getMany()] of a query builder prepared
    from [q]. *)
Definition getOne (q : SearchQuery) : M (option props) :=
  emit (EGetOne q);;
  rs ← gets (select q);
  ret (head rs).

Definition getMany (q : SearchQuery) : M (list props) :=
  emit (EGetMany q);;
  gets (select q).

Definition same_key (pk : string) (k : value) (row : props) : bool :=
  bool_decide (get row pk = k).

(** [manager.save(entity)]: an entity without primary key is inserted
    under a generated one; an entity with a primary key replaces the columns
    it has of the row with that key, or is inserted under that key when
    there is no such row. The saved entity comes back with its key. *)
Definition manager_save (m : manager) (entity : props) : M props :=
  emit (ESave m entity);;
  pk ← gets pk_col;
  match get entity pk with
  | VUndefined | VNull =>
      id ← gets next_id;
      let saved := <[pk := VNum id]> entity in
      modify (λ st, mkState (heap st) (pk_col st) (rows st ++ [saved]) (id + 1)%Z);;
      ret saved
  | k =>
      rs ← gets rows;
      (if existsb (same_key pk k) rs
       then modify (set_rows (map (λ row, if same_key pk k row then entity ∪ row else row) rs))
       else modify (set_rows (rs ++ [entity])));;
      ret entity
  end.

(** [manager.remove(target)]: the row of an entity is removed by its
    primary key; an array stands for its entities (the repository passes
    none; what in it is no entity is left aside here); any other value is
    rejected with [MustBeEntityError], nothing being removed. *)
Definition manager_remove (m : manager) (target : value) : M unit :=
  emit (ERemove m target);;
  match target with
  | VObj e =>
      pk ← gets pk_col;
      modify (λ st, set_rows (List.filter (λ row, negb (same_key pk (get e pk) row))
                                (rows st)) st)
  | VArr l =>
      pk ← gets pk_col;
      modify (λ st, set_rows
                (List.filter
                   (λ row, negb (existsb (λ x, match x with
                                               | VObj e => same_key pk (get e pk) row
                                               | _ => false
                                               end) l))
                   (rows st)) st)
  | _ => throw (MustBeEntityError "remove" target)
  end.

(** [manager.transaction(run)]: [run] receives the transaction's manager;
    the writes are kept when it returns and undone when it throws. *)
Definition transaction {A} (run : manager → M A) : M A := λ st,
  let o := run TxManager st in
  match o_res o with
  | Ok a => mkOutcome (ETxBegin :: o_trace o ++ [ETxCommit]) (o_state o) (Ok a)
  | Throw e =>
      mkOutcome (ETxBegin :: o_trace o ++ [ETxRollback])
                (set_rows (rows st) (o_state o)) (Throw e)
  end.

(** *** DataMapperHelper *)

(** Modelled from the spec: [DataMapperHelper.anyToModel]
    (usecases/helpers/DataMapperHelper.ts is not part of the sources):
    constructs a new instance of the model class and copies every enumerable
    property of the source, without filtering. *)
Definition anyToModel (obj : props) (ModelClass : proto) : M loc :=
  alloc (mkObj ModelClass obj).

(** Modelled from the spec: [DataMapperHelper.applyChangesToModel]
    (usecases/helpers/DataMapperHelper.ts is not part of the sources): for
    every enumerable property present on the source, overwrites the
    same-named property of the target; the other properties of the target
    stay. *)
Definition applyChangesToModel (target : loc) (source : props) : M unit :=
  o ← deref target;
  modify (λ st, set_heap (<[target := mkObj (obj_proto o) (source ∪ obj_props o)]> (heap st)) st).

End Orm.

(* ===================================================================== *)
(** ** [CrudRepository]: the version with the save and delete hooks *)
(* ===================================================================== *)

Module Repository.
Import Js Meta Orm.

(** [ICondition | SearchQuery] *)
Inductive conditionOrQuery : Type :=
  | ACondition (c : props)
  | AQuery (q : SearchQuery).

Record SearchResultDto (A : Type) : Type := mkResult {
  items : list A;
  total : Z
}.
Arguments mkResult {A} _ _.
Arguments items {A} _.
Arguments total {A} _.

(** The caller's transaction wrapper: it receives the callback and decides
    when, and whether, to run it. *)
Definition TransactionHandler : Type := ∀ A : Type, M A → M unit.

(** The wrapper that just awaits the callback. *)
Definition run_callback : TransactionHandler := λ A callback, callback;; ret tt.

(** The overridable methods. *)
Record Hooks : Type := mkHooks {
  beforeSave : option loc → loc → M unit;
  afterSave : option loc → loc → M unit;
  beforeDelete : Z → M unit;
  afterDelete : Z → M unit
}.

(** The bodies [CrudRepository] itself gives them. *)
Definition default_hooks : Hooks :=
  mkHooks (λ _ _, ret tt) (λ _ _, ret tt) (λ _, ret tt) (λ _, ret tt).

Record CrudRepository : Type := mkRepo {
  primaryKey : string;
  modelClass : option proto;
  constructor_name : string;       (* this.constructor.name *)
  hooks : Hooks
}.

(** A [new CrudRepository()]: [primaryKey = 'id'], [modelClass] unset. *)
Definition new_CrudRepository : CrudRepository :=
  mkRepo "id" None "CrudRepository" default_hooks.

(** [init(dbRepository, modelClass)]; the repository handle is the state
    the calls run in. *)
Definition init (this : CrudRepository) (modelClass : option proto) : CrudRepository :=
  mkRepo (primaryKey this) modelClass (constructor_name this) (hooks this).

Section Methods.

(** The helpers of the use-case layer that are not part of the sources and
    whose results the repository only passes on. *)
Variable SearchInputDto : Type.
Variable SearchHelper_search : SearchInputDto → SearchQuery → M (SearchResultDto props).
Variable DataMapperHelper_modelToEntity : jsobj → props.

(** The field metadata written when the model classes were defined. *)
Variable meta : MetaStore.

Variable this : CrudRepository.

Definition modelToEntity (model : loc) : M props :=
  o ← deref model; ret (DataMapperHelper_modelToEntity o).

Definition entityToModel (obj : props) : M loc :=
  match modelClass this with
  | None =>
      throw (Error ("Property modelClass is not set in repository: "
                    +:+ constructor_name this))
  | Some cls => anyToModel obj cls
  end.

Definition search (dto : SearchInputDto) (searchQuery : SearchQuery)
    : M (SearchResultDto loc) :=
  result ← SearchHelper_search dto searchQuery;
  models ← mapM entityToModel (items result);
  ret (mkResult models (total result)).

Definition createQueryBuilder (conditionOrQuery : conditionOrQuery) : SearchQuery :=
  match conditionOrQuery with
  | AQuery searchQuery => searchQuery
  | ACondition c => mkQuery c (relations new_SearchQuery)
  end.

Definition findOne (conditionOrQuery : conditionOrQuery) : M (option loc) :=
  let dbQuery := createQueryBuilder conditionOrQuery in
  row ← getOne dbQuery;
  match row with
  | Some row => model ← entityToModel row; ret (Some model)
  | None => ret None
  end.

Definition findMany (conditionOrQuery : conditionOrQuery) : M (list loc) :=
  let dbQuery := createQueryBuilder conditionOrQuery in
  rows ← getMany dbQuery;
  mapM entityToModel rows.

(** [await this.beforeSave(prevModel, nextModel)] and the like. *)
Definition call_beforeSave (prevModel : option loc) (nextModel : loc) : M unit :=
  p ← deref_opt prevModel;
  n ← deref nextModel;
  emit (EBeforeSave p n);;
  beforeSave (hooks this) prevModel nextModel.

Definition call_afterSave (prevModel : option loc) (nextModel : loc) : M unit :=
  p ← deref_opt prevModel;
  n ← deref nextModel;
  emit (EAfterSave p n);;
  afterSave (hooks this) prevModel nextModel.

Definition call_beforeDelete (id : Z) : M unit :=
  emit (EBeforeDelete id);; beforeDelete (hooks this) id.

Definition call_afterDelete (id : Z) : M unit :=
  emit (EAfterDelete id);; afterDelete (hooks this) id.

(** The [saveHandler] closure of [create] and [update]. *)
Definition saveHandler (prevModel : option loc) (nextModel : loc) (manager : manager)
    : M loc :=
  call_beforeSave prevModel nextModel;;
  e ← modelToEntity nextModel;
  entity ← manager_save manager e;
  applyChangesToModel nextModel entity;;
  call_afterSave prevModel nextModel;;
  ret nextModel.

(** The [if (transactionHandler) ... else ...] that ends [create] and
    [update]. *)
Definition run_saveHandler (handler : manager → M loc)
    (transactionHandler : option TransactionHandler) : M unit :=
  match transactionHandler with
  | Some transactionHandler =>
      transaction (λ manager, transactionHandler _ (handler manager))
  | None => handler DefaultManager;; ret tt
  end.

Definition create (model : loc) (transactionHandler : option TransactionHandler)
    : M loc :=
  run_saveHandler (saveHandler None model) transactionHandler;;
  ret model.

(** What [update] takes from outside the repository: lodash's [_.has] and
    the engine's printing of a large number (see [number_to_string]). *)
Variable lodash_has : props → string → bool.
Variable exponent_notation : Z → string.

(** The Search Query of the first three statements of [update]. *)
Definition update_searchQuery (id : Z) (model : jsobj) : result SearchQuery :=
  rbind (getMetaRelations meta (obj_proto model)) (λ declared,
  Ok (mkQuery {[ primaryKey this := VNum id ]}
              (List.filter (lodash_has (obj_props model)) declared))).

Definition update (id : Z) (model : loc) (transactionHandler : option TransactionHandler)
    : M loc :=
  m ← deref model;
  searchQuery ← lift (update_searchQuery id m);
  prevModel ← findOne (AQuery searchQuery);
  match prevModel with
  | None =>
      throw (Error ("Not found model by id: " +:+ number_to_string exponent_notation id))
  | Some prevModel =>
      nextModel ← cloneDeep prevModel;
      m ← deref model;
      applyChangesToModel nextModel (obj_props m);;
      run_saveHandler (saveHandler (Some prevModel) nextModel) transactionHandler;;
      ret nextModel
  end.

Definition remove (id : Z) (transactionHandler : option TransactionHandler) : M unit :=
  match transactionHandler with
  | Some transactionHandler =>
      transaction (λ manager,
        transactionHandler _
          (call_beforeDelete id;;
           manager_remove manager (VNum id);;
           call_afterDelete id))
  | None => manager_remove DefaultManager (VNum id)
  end.

End Methods.
End Repository.

(* ===================================================================== *)
(** ** [CrudRepository]: the version built on [save] and [saveInternal] *)
(* ===================================================================== *)

Module SaveRepository.
Import Js Meta Orm.
Import Repository.

Section Methods.

Variable DataMapperHelper_modelToEntity : jsobj → props.
Variable this : CrudRepository.

Definition saveInternal (manager : manager) (nextModel : loc) : M unit :=
  e ← modelToEntity DataMapperHelper_modelToEntity nextModel;
  entity ← manager_save manager e;
  applyChangesToModel nextModel entity.

Definition save (model : loc) (transactionHandler : option TransactionHandler) : M loc :=
  match transactionHandler with
  | Some transactionHandler =>
      transaction (λ manager, transactionHandler _ (saveInternal manager model))
  | None => saveInternal DefaultManager model
  end;;
  ret model.

Definition create (model : loc) (transactionHandler : option TransactionHandler)
    : M loc :=
  assign model (primaryKey this) VUndefined;;
  save model transactionHandler.

Definition update (id : Z) (model : loc) (transactionHandler : option TransactionHandler)
    : M loc :=
  assign model (primaryKey this) (VNum id);;
  save model transactionHandler.

Definition removeInternal (manager : manager) (id : Z) : M unit :=
  manager_remove manager (VObj {[ "id" := VNum id ]}).

Definition remove (id : Z) (transactionHandler : option TransactionHandler) : M unit :=
  match transactionHandler with
  | Some transactionHandler =>
      transaction (λ manager, transactionHandler _ (removeInternal manager id))
  | None => removeInternal DefaultManager id
  end.

End Methods.
End SaveRepository.

(* ===================================================================== *)
(** ** Vocabulary of the properties *)
(* ===================================================================== *)

Module Spec.
Import Js Meta Orm Repository.

(** Every array reference held in the registry points into [arrays]. *)
Definition wf_store (s : MetaStore) : Prop :=
  ∀ o r, meta_keys s !! o = Some r → r < length (arrays s).

(** Every field name listed for [cls] has a descriptor that [cls] can
    read. *)
Definition described (s : MetaStore) (cls : proto) : Prop :=
  ∀ k, k ∈ getMetaFields s cls → is_Some (getFieldOptions s cls k).

(** Only root classes hold a registry, and no two of them the same array. *)
Definition flat_store (s : MetaStore) : Prop :=
  (∀ o r, meta_keys s !! o = Some r → ∃ c, o = [c]) ∧
  (∀ o o' r, meta_keys s !! o = Some r → meta_keys s !! o' = Some r → o = o').

(** One execution of a field decorator on a property of a class that
    extends no other, and a run of such executions in order. *)
Record decoration : Type := mkDecoration {
  d_options : props;
  d_internal : props;
  d_class : string;
  d_property : string
}.

Definition run_decorations (ds : list decoration) (s : MetaStore) : MetaStore :=
  foldl (λ s d, ColumnMetaDecorator (d_options d) (d_internal d)
                  [d_class d] (d_property d) s) s ds.

(** A field of [cls] declared with [appType] ['relation'] or
    ['relationId']. *)
Definition declared_relation (s : MetaStore) (cls : proto) (k : string) : Prop :=
  k ∈ getMetaFields s cls ∧
  ∃ d, getFieldOptions s cls k = Some d ∧
       (get d "appType" = VStr "relation" ∨ get d "appType" = VStr "relationId").




(** A row with primary key [id] is in the table. *)
Definition stored (pk : string) (id : Z) (st : state) : Prop :=
  ∃ row, row ∈ rows st ∧ row !! pk = Some (VNum id).

Definition is_hook_event (e : event) : bool :=
  match e with
  | EBeforeSave _ _ | EAfterSave _ _ | EBeforeDelete _ | EAfterDelete _ => true
  | _ => false
  end.

Definition is_db_event (e : event) : bool :=
  match e with
  | EGetOne _ | EGetMany _ | ESave _ _ | ERemove _ _ => true
  | _ => false
  end.

(** Every call to the persistence layer in the trace happens while a
    transaction is open ([open] tells whether one is at the start). *)
Fixpoint within_transaction (open : bool) (t : list event) : bool :=
  match t with
  | [] => true
  | ETxBegin :: t' => within_transaction true t'
  | ETxCommit :: t' | ETxRollback :: t' => within_transaction false t'
  | e :: t' => (if is_db_event e then open else true) && within_transaction open t'
  end.

(** The error conditions of the repository. *)
Definition NotFound (exponent_notation : Z → string) (id : Z) : exn :=
  Error ("Not found model by id: " +:+ number_to_string exponent_notation id).

Definition Misconfigured (this : CrudRepository) : exn :=
  Error ("Property modelClass is not set in repository: " +:+ constructor_name this).

End Spec.

(** Inputs used to exercise the definitions. *)
Module Examples.
Import Js Meta Orm Repository Spec.

Definition Article : proto := ["Article"].
Definition Parent : proto := ["Parent"].
Definition Child : proto := ["Child"; "Parent"].

Definition of_type (t : string) : props := {[ "appType" := VStr t ]}.

(** [class Article { @StringField title; @RelationIdField author;
    @RelationField tags }] *)
Definition article_meta : MetaStore :=
  ColumnMetaDecorator (of_type "relation") ∅ Article "tags"
    (ColumnMetaDecorator (of_type "relationId") ∅ Article "author"
      (ColumnMetaDecorator (of_type "string") ∅ Article "title" empty_store)).

(** [class Parent { @F a }] then [class Child extends Parent { @F b }] *)
Definition parent_meta : MetaStore :=
  ColumnMetaDecorator (of_type "relation") ∅ Parent "a" empty_store.
Definition child_meta : MetaStore :=
  ColumnMetaDecorator (of_type "string") ∅ Child "b" parent_meta.

Definition article_repo : CrudRepository := init new_CrudRepository (Some Article).

(** [{title: 'x', tags: [1]}] *)
Definition patch : jsobj :=
  mkObj Article {[ "title" := VStr "x"; "tags" := VArr [VNum 1] ]}.

(** [{id: 99, name: 'a'}] *)
Definition preset : jsobj :=
  mkObj Article {[ "id" := VNum 99; "name" := VStr "a" ]}.

Definition row1 : props :=
  {[ "id" := VNum 1; "title" := VStr "old";
     "author" := VObj {[ "id" := VNum 7; "name" := VStr "bob" ]} ]}.

(** One stored article (id 1); the incoming model is object 0. *)
Definition st_patch : state := mkState [patch] "id" [row1] 2.
Definition st_preset : state := mkState [preset] "id" [] 1.

(** A search helper that returns every row the query selects. *)
Definition search_all (dto : unit) (q : SearchQuery) : M (SearchResultDto props) :=
  rs ← getMany q; ret (mkResult rs (Z.of_nat (length rs))).

(** The ids of the examples are small: their exponent notation is never
    asked for. *)
Definition exponent_unused (n : Z) : string := "".

(** The decorator executions behind [article_meta]. *)
Definition article_decorations : list decoration :=
  [mkDecoration (of_type "string") ∅ "Article" "title";
   mkDecoration (of_type "relationId") ∅ "Article" "author";
   mkDecoration (of_type "relation") ∅ "Article" "tags"].

(** A [Parent] model, as object 0 of an empty table, and its repository. *)
Definition parent_repo : CrudRepository := init new_CrudRepository (Some Parent).
Definition st_parent : state := mkState [mkObj Parent ∅] "id" [] 1.


(** A wrapper that returns without running the callback. *)
Definition skip_callback : TransactionHandler := λ A callback, ret tt.

(** Hooks of a subclass whose [beforeSave] and [beforeDelete] reject. *)
Definition vetoing_hooks : Hooks :=
  mkHooks (λ _ _, throw (Error "rejected")) (λ _ _, ret tt)
          (λ _, throw (Error "rejected")) (λ _, ret tt).

(** Hooks of a subclass whose [afterSave] fails. *)
Definition failing_afterSave : Hooks :=
  mkHooks (λ _ _, ret tt) (λ _ _, throw (Error "after")) (λ _, ret tt) (λ _, ret tt).

Definition vetoing_repo : CrudRepository := mkRepo "id" (Some Article) "Articles" vetoing_hooks.
Definition failing_repo : CrudRepository :=
  mkRepo "id" (Some Article) "Articles" failing_afterSave.

(** [{name: 'a'}], a model without key, as object 0 of an empty table. *)
Definition fresh : jsobj := mkObj Article {[ "name" := VStr "a" ]}.
Definition st_fresh : state := mkState [fresh] "id" [] 1.

(** An [./index] that exports [StringField] and [RelationField]. *)
Definition index_two (name : string) : option string :=
  if bool_decide (name = "StringField") then Some "StringField"
  else if bool_decide (name = "RelationField") then Some "RelationField"
  else None.

End Examples.

(* ===================================================================== *)
(** ** Properties of the field metadata store *)
(* ===================================================================== *)

Module MetaTheory.
Import Js Meta Orm Repository Spec Examples.

Section chain.
Context {V : Type}.
Implicit Types (own : proto → option V) (o : proto).

Lemma OrdinaryGetMetadata_own own o v :
  own o = Some v → OrdinaryGetMetadata own o = Some v.
Proof. intros H. destruct o; simpl; by rewrite H. Qed.

Lemma OrdinaryGetMetadata_Some own o v :
  OrdinaryGetMetadata own o = Some v → ∃ o', o' `suffix_of` o ∧ own o' = Some v.
Proof.
  induction o as [|c o IH]; simpl.
  - destruct (own []) eqn:E; [|done]. intros [= ->]. by exists [].
  - destruct (own (c :: o)) eqn:E.
    + intros [= ->]. by exists (c :: o).
    + intros [o' [Hs Ho']]%IH. exists o'. split; [|done]. by apply suffix_cons_r.
Qed.

(** A descriptor defined on an ancestor is readable from the descendant
    (possibly shadowed by a nearer one). *)
Lemma OrdinaryGetMetadata_suffix own o o' :
  o' `suffix_of` o → is_Some (OrdinaryGetMetadata own o') →
  is_Some (OrdinaryGetMetadata own o).
Proof.
  induction o as [|c o IH]; intros Hs Ho'.
  - apply suffix_nil_inv in Hs. by subst.
  - destruct Hs as [[|c' k] Hk]; simpl in Hk.
    + by subst.
    + injection Hk as -> ->.
      simpl. destruct (own (c' :: k ++ o')); [by eexists|].
      apply IH; [by exists k|done].
Qed.

Lemma OrdinaryGetMetadata_mono own own' o :
  (∀ o', is_Some (own o') → is_Some (own' o')) →
  is_Some (OrdinaryGetMetadata own o) → is_Some (OrdinaryGetMetadata own' o).
Proof.
  intros Hmono. induction o as [|c o IH]; simpl.
  - destruct (own []) eqn:E; [|by intros [? ?]].
    intros _. destruct (Hmono []) as [v' ->]; [by rewrite E|]. by eexists.
  - destruct (own (c :: o)) eqn:E.
    + intros _. destruct (Hmono (c :: o)) as [v' ->]; [by rewrite E|]. by eexists.
    + intros H. destruct (own' (c :: o)); [by eexists|]. by apply IH.
Qed.
End chain.

(** Where the registry found from [cls] comes from after [o0] was given
    the array [r]. *)
Lemma getMetadata_KEYS_insert (keys : gmap proto nat) o0 r cls r' :
  OrdinaryGetMetadata (λ o', <[o0 := r]> keys !! o') cls = Some r' →
  (r' = r ∧ o0 `suffix_of` cls) ∨
  OrdinaryGetMetadata (λ o', keys !! o') cls = Some r'.
Proof.
  induction cls as [|c cls IH]; simpl.
  - rewrite lookup_insert. case_decide as E.
    + intros [= <-]. left. by subst.
    + destruct (keys !! []); [by right|done].
  - rewrite lookup_insert. case_decide as E.
    + intros [= <-]. left. by subst.
    + destruct (keys !! (c :: cls)); [by right|].
      intros [[-> Hs]|H]%IH; [left|by right]. split; [done|]. by apply suffix_cons_r.
Qed.

Lemma wf_store_chain s o r :
  wf_store s → getMetadata_KEYS s o = Some r → r < length (arrays s).
Proof.
  intros Hwf (o' & _ & Ho')%OrdinaryGetMetadata_Some. by eapply Hwf.
Qed.

Lemma wf_store_empty : wf_store empty_store.
Proof. intros o r. simpl. by rewrite lookup_empty. Qed.

Lemma meta_field_decorate options internalOptions o p s :
  meta_field (ColumnMetaDecorator options internalOptions o p s)
  = <[(o, p) := options]> (meta_field s).
Proof.
  unfold ColumnMetaDecorator, getMetadata_KEYS. simpl.
  by destruct (OrdinaryGetMetadata _ o).
Qed.

Lemma meta_decorator_decorate options internalOptions o p s :
  meta_decorator (ColumnMetaDecorator options internalOptions o p s)
  = <[(o, p) := get internalOptions "decoratorName"]> (meta_decorator s).
Proof.
  unfold ColumnMetaDecorator, getMetadata_KEYS. simpl.
  by destruct (OrdinaryGetMetadata _ o).
Qed.

Lemma getFieldOptions_decorate options internalOptions o p s :
  getFieldOptions (ColumnMetaDecorator options internalOptions o p s) o p = Some options.
Proof.
  unfold getFieldOptions, getMetadata_FIELD.
  apply OrdinaryGetMetadata_own.
  by rewrite meta_field_decorate, lookup_insert_eq.
Qed.

(** Descriptors are never removed. *)
Lemma getFieldOptions_decorate_mono options internalOptions o p s cls k :
  is_Some (getFieldOptions s cls k) →
  is_Some (getFieldOptions (ColumnMetaDecorator options internalOptions o p s) cls k).
Proof.
  unfold getFieldOptions, getMetadata_FIELD. apply OrdinaryGetMetadata_mono.
  intros o' Ho'. rewrite meta_field_decorate, lookup_insert.
  case_decide; [by eexists|done].
Qed.

(** Each decoration appends the property name to the list of its class. *)
Lemma getMetaFields_decorate options internalOptions o p s :
  wf_store s →
  getMetaFields (ColumnMetaDecorator options internalOptions o p s) o
  = getMetaFields s o ++ [p].
Proof.
  intros Hwf. unfold ColumnMetaDecorator, getMetaFields, getMetadata_KEYS. simpl.
  destruct (OrdinaryGetMetadata (λ o', meta_keys s !! o') o) as [r|] eqn:E; simpl.
  - rewrite (OrdinaryGetMetadata_own _ _ r); [|by rewrite lookup_insert_eq].
    unfold array_at at 1. simpl.
    rewrite list_lookup_insert_eq; [done|]. by eapply wf_store_chain.
  - rewrite (OrdinaryGetMetadata_own _ _ (length (arrays s))); [|by rewrite lookup_insert_eq].
    unfold array_at. simpl.
    rewrite list_lookup_insert_eq; [|rewrite length_app; simpl; lia].
    simpl. by rewrite lookup_app_r, Nat.sub_diag.
Qed.

Lemma wf_store_decorate options internalOptions o p s :
  wf_store s → wf_store (ColumnMetaDecorator options internalOptions o p s).
Proof.
  intros Hwf o' r'. unfold ColumnMetaDecorator, getMetadata_KEYS. simpl.
  destruct (OrdinaryGetMetadata (λ o', meta_keys s !! o') o) as [r|] eqn:E; simpl;
    rewrite length_insert; rewrite lookup_insert; case_decide; simplify_eq.
  - intros [= <-]. by eapply wf_store_chain.
  - apply Hwf.
  - intros [= <-]. rewrite length_app; simpl; lia.
  - intros H'%Hwf. rewrite length_app; simpl; lia.
Qed.

(** C7 (as amended): decorating the property [p] of [o] a second time
    overwrites its descriptor and its decorator name, so both stores are as
    if only the last decoration had run; the list of field names of [o] is
    appended to by every decoration, so it ends with [p] twice where a single
    decoration leaves it once. *)
Theorem redecoration_last_write_wins s o p options1 internal1 options2 internal2 :
  wf_store s →
  let once := ColumnMetaDecorator options2 internal2 o p s in
  let twice :=
    ColumnMetaDecorator options2 internal2 o p
      (ColumnMetaDecorator options1 internal1 o p s) in
  meta_field twice = meta_field once ∧
  meta_decorator twice = meta_decorator once ∧
  getFieldOptions twice o p = Some options2 ∧
  getMetaFields once o = getMetaFields s o ++ [p] ∧
  getMetaFields twice o = getMetaFields s o ++ [p; p].
Proof.
  intros Hwf once twice. subst once twice.
  repeat split.
  - by rewrite !meta_field_decorate, insert_insert_eq.
  - by rewrite !meta_decorator_decorate, insert_insert_eq.
  - apply getFieldOptions_decorate.
  - by apply getMetaFields_decorate.
  - rewrite getMetaFields_decorate by by apply wf_store_decorate.
    rewrite getMetaFields_decorate by done.
    by rewrite <- app_assoc.
Qed.

Lemma redecoration_last_write_wins_witness :
  wf_store empty_store ∧
  getMetaFields
    (ColumnMetaDecorator (of_type "text") ∅ Article "title"
       (ColumnMetaDecorator (of_type "string") ∅ Article "title" empty_store)) Article
  = ["title"; "title"].
Proof.
  split; [apply wf_store_empty|].
  apply (redecoration_last_write_wins empty_store Article "title"
           (of_type "string") ∅ (of_type "text") ∅ wf_store_empty).
Defined.

(** C7 (as stated) fails: after [title] is decorated twice the store is
    not the one a single decoration leaves, the list of field names holds
    [title] twice. *)
Lemma redecoration_not_idempotent :
  let once := ColumnMetaDecorator (of_type "text") ∅ Article "title" empty_store in
  let twice :=
    ColumnMetaDecorator (of_type "text") ∅ Article "title"
      (ColumnMetaDecorator (of_type "string") ∅ Article "title" empty_store) in
  getMetaFields once Article = ["title"] ∧
  getMetaFields twice Article = ["title"; "title"] ∧
  twice ≠ once.
Proof.
  split; [done|]. split; [done|].
  intros H. apply (f_equal (λ s, getMetaFields s Article)) in H. discriminate H.
Qed.

Lemma flat_store_root s c :
  flat_store s → getMetadata_KEYS s [c] = meta_keys s !! [c].
Proof.
  intros [Hroot _]. unfold getMetadata_KEYS. simpl.
  destruct (meta_keys s !! [c]) eqn:E; [done|].
  destruct (meta_keys s !! []) eqn:E'; [|done].
  apply Hroot in E' as [c' ?]. done.
Qed.

(** The decorator on a root class that already has a registry, and on one
    that has none yet. *)
Lemma decorate_own options internalOptions c p s r :
  flat_store s → meta_keys s !! [c] = Some r →
  meta_keys (ColumnMetaDecorator options internalOptions [c] p s) = meta_keys s ∧
  arrays (ColumnMetaDecorator options internalOptions [c] p s)
  = <[r := array_at s r ++ [p]]> (arrays s).
Proof.
  intros Hflat Hr. unfold ColumnMetaDecorator.
  change (getMetadata_KEYS _ [c]) with (getMetadata_KEYS s [c]).
  rewrite (flat_store_root _ _ Hflat), Hr. simpl. split; [|done].
  by apply insert_id.
Qed.

Lemma decorate_fresh options internalOptions c p s :
  flat_store s → meta_keys s !! [c] = None →
  meta_keys (ColumnMetaDecorator options internalOptions [c] p s)
  = <[[c] := length (arrays s)]> (meta_keys s) ∧
  arrays (ColumnMetaDecorator options internalOptions [c] p s) = arrays s ++ [[p]].
Proof.
  intros Hflat Hr. unfold ColumnMetaDecorator.
  change (getMetadata_KEYS _ [c]) with (getMetadata_KEYS s [c]).
  rewrite (flat_store_root _ _ Hflat), Hr. simpl. split; [done|].
  unfold array_at. simpl. rewrite lookup_app_r, Nat.sub_diag by done. simpl.
  replace (length (arrays s)) with (length (arrays s) + 0) at 1 by lia.
  by rewrite insert_app_r.
Qed.

Lemma flat_store_decorate options internalOptions c p s :
  flat_store s → wf_store s →
  flat_store (ColumnMetaDecorator options internalOptions [c] p s).
Proof.
  intros Hflat Hwf. destruct (meta_keys s !! [c]) as [r|] eqn:Hr.
  - destruct (decorate_own options internalOptions c p s r Hflat Hr) as [Hk _].
    unfold flat_store. rewrite Hk. apply Hflat.
  - destruct (decorate_fresh options internalOptions c p s Hflat Hr) as [Hk _].
    destruct Hflat as [Hroot Hinj].
    unfold flat_store. rewrite Hk. split.
    + intros o r. rewrite lookup_insert. case_decide; [by eexists|apply Hroot].
    + intros o o' r. rewrite !lookup_insert.
      repeat case_decide; subst; try done.
      * intros [= <-] H'%Hwf. lia.
      * intros H'%Hwf [= <-]. lia.
      * apply Hinj.
Qed.

(** Where no class inherits a registry, every decorator execution keeps
    each listed field name described; so it is after any run of decorators
    on classes that extend no other. *)
Lemma described_decorate_flat options internalOptions c p s :
  flat_store s → wf_store s → (∀ cls, described s cls) →
  ∀ cls, described (ColumnMetaDecorator options internalOptions [c] p s) cls.
Proof.
  intros Hflat Hwf Hdesc cls k.
  set (s' := ColumnMetaDecorator options internalOptions [c] p s).
  assert (Hp : [c] `suffix_of` cls → is_Some (getFieldOptions s' cls p)).
  { intros Hs. unfold getFieldOptions, getMetadata_FIELD.
    eapply OrdinaryGetMetadata_suffix; [done|].
    exists options. apply (getFieldOptions_decorate options internalOptions [c] p s). }
  assert (Hold : k ∈ getMetaFields s cls → is_Some (getFieldOptions s' cls k)).
  { intros Hk%Hdesc. by apply getFieldOptions_decorate_mono. }
  unfold getMetaFields at 1, getMetadata_KEYS.
  destruct (meta_keys s !! [c]) as [r|] eqn:Hr.
  - destruct (decorate_own options internalOptions c p s r Hflat Hr) as [Hk Ha].
    fold s' in Hk, Ha. rewrite Hk.
    destruct (OrdinaryGetMetadata _ cls) as [r'|] eqn:Hr'; [|inversion 1].
    unfold array_at. rewrite Ha.
    destruct (decide (r = r')) as [<-|Hne].
    + rewrite list_lookup_insert_eq by by eapply Hwf.
      simpl. rewrite elem_of_app, list_elem_of_singleton.
      intros [Hin| ->].
      * apply Hold. unfold getMetaFields, getMetadata_KEYS. by rewrite Hr'.
      * apply Hp. apply OrdinaryGetMetadata_Some in Hr' as (o' & Hs & Ho').
        destruct Hflat as [_ Hinj]. by rewrite (Hinj _ _ _ Hr Ho').
    + rewrite list_lookup_insert_ne by done. intros Hin.
      apply Hold. unfold getMetaFields, getMetadata_KEYS. by rewrite Hr'.
  - destruct (decorate_fresh options internalOptions c p s Hflat Hr) as [Hk Ha].
    fold s' in Hk, Ha. rewrite Hk.
    destruct (OrdinaryGetMetadata _ cls) as [r'|] eqn:Hr'; [|inversion 1].
    unfold array_at. rewrite Ha.
    apply getMetadata_KEYS_insert in Hr' as [[-> Hs]|Hr'].
    + rewrite lookup_app_r, Nat.sub_diag by done. simpl.
      intros ->%list_elem_of_singleton. by apply Hp.
    + rewrite lookup_app_l by by eapply wf_store_chain.
      intros Hin. apply Hold. unfold getMetaFields, getMetadata_KEYS. by rewrite Hr'.
Qed.

Lemma getMetaFields_empty cls : getMetaFields empty_store cls = [].
Proof.
  unfold getMetaFields, getMetadata_KEYS. simpl.
  induction cls as [|c cls IH]; simpl; rewrite lookup_empty; [done|].
  by destruct cls.
Qed.

Lemma described_root_classes ds cls :
  described (run_decorations ds empty_store) cls.
Proof.
  cut (∀ s, flat_store s → wf_store s → (∀ cls, described s cls) →
            ∀ cls, described (run_decorations ds s) cls).
  { intros H. apply H.
    - split; intros o; intros; simplify_map_eq.
    - apply wf_store_empty.
    - intros c k Hk. rewrite getMetaFields_empty in Hk. by apply elem_of_nil in Hk. }
  induction ds as [|d ds IH]; intros s Hflat Hwf Hdesc; [done|].
  simpl. apply IH.
  - by apply flat_store_decorate.
  - by apply wf_store_decorate.
  - by apply described_decorate_flat.
Qed.

(** C8, at the input where it fails: [class Parent { @F a }] followed by
    [class Child extends Parent { @F b }]. The decorator of [b] reads the
    list of [Parent] through the prototype chain and pushes onto that very
    array, so [b] is listed for [Parent] while there is no descriptor of
    [b] that [Parent] can read, and [getMetaRelations(Parent)] reads
    [appType] of [undefined]. *)
Lemma inherited_registry_loses_descriptor :
  described parent_meta Parent ∧
  getMetaFields child_meta Parent = ["a"; "b"] ∧
  getFieldOptions child_meta Parent "b" = None ∧
  ¬ described child_meta Parent ∧
  getMetaRelations child_meta Parent
  = Throw (TypeError "Cannot read properties of undefined (reading 'appType')").
Proof.
  split.
  { intros k Hk. change (getMetaFields parent_meta Parent) with ["a"] in Hk.
    apply list_elem_of_singleton in Hk as ->. by eexists. }
  split; [done|]. split; [done|]. split; [|done].
  intros H. specialize (H "b").
  assert (Hb : "b" ∈ getMetaFields child_meta Parent).
  { change (getMetaFields child_meta Parent) with ["a"; "b"]. set_solver. }
  apply H in Hb. by destruct Hb.
Qed.

(** C10: with [options] omitted or [null], [BaseField] throws a
    [TypeError] while it builds the decorator list, whatever
    [internalOptions] is; no decorator is returned. *)
Theorem BaseField_requires_options (internalOptions : arg (option props)) :
  (∃ msg, BaseField Omitted internalOptions = Throw (TypeError msg)) ∧
  (∃ msg, BaseField (Given None) internalOptions = Throw (TypeError msg)).
Proof.
  split; destruct internalOptions as [|[io|]]; simpl; by eexists.
Qed.

(** With an [options] object, [BaseField] returns its decorator. *)
Lemma BaseField_with_options (options : props) :
  (∃ d, BaseField (Given (Some options)) Omitted = Ok d) ∧
  (∀ internalOptions, ∃ d,
     BaseField (Given (Some options)) (Given (Some internalOptions)) = Ok d).
Proof. split; [|intros internalOptions]; simpl; by eexists. Qed.









End MetaTheory.

(* ===================================================================== *)
(** ** Properties of the repository *)
(* ===================================================================== *)

Module RepositoryTheory.
Import Js Meta Orm Repository Spec Examples.

(** *** Running a computation *)

Lemma prepend_nil {A} (o : outcome A) : prepend [] o = o.
Proof. by destruct o. Qed.

Lemma prepend_mk {A} t t' st (r : result A) :
  prepend t (mkOutcome t' st r) = mkOutcome (t ++ t') st r.
Proof. done. Qed.

Lemma bind_Ok {A B} (m : M A) (f : A → M B) st t st' a :
  m st = mkOutcome t st' (Ok a) → (m ≫= f) st = prepend t (f a st').
Proof. intros H. unfold mbind, M_bind, bind. by rewrite H. Qed.

Lemma bind_Throw {A B} (m : M A) (f : A → M B) st t st' e :
  m st = mkOutcome t st' (Throw e) → (m ≫= f) st = mkOutcome t st' (Throw e).
Proof. intros H. unfold mbind, M_bind, bind. by rewrite H. Qed.

Lemma bind_trace_prefix {A B} (m : M A) (f : A → M B) st :
  ∃ rest, o_trace ((m ≫= f) st) = o_trace (m st) ++ rest.
Proof.
  unfold mbind, M_bind, bind. destruct (o_res (m st)); simpl.
  - by eexists.
  - exists []. by rewrite app_nil_r.
Qed.

Lemma bind_ret_trace {A B} (m : M A) (b : B) st :
  o_trace ((m ≫= λ _, ret b) st) = o_trace (m st).
Proof.
  unfold mbind, M_bind, bind. destruct (o_res (m st)); simpl; [|done].
  by rewrite app_nil_r.
Qed.

Lemma bind_ret_res {A B} (m : M A) (b : B) st :
  o_res ((m ≫= λ _, ret b) st)
  = match o_res (m st) with Ok _ => Ok b | Throw e => Throw e end.
Proof. unfold mbind, M_bind, bind. by destruct (o_res (m st)). Qed.

Lemma deref_Some l o st :
  heap st !! l = Some o → deref l st = mkOutcome [] st (Ok o).
Proof. intros H. unfold deref. by rewrite H. Qed.

Lemma cloneDeep_Some l o st :
  heap st !! l = Some o →
  cloneDeep l st = mkOutcome [] (set_heap (heap st ++ [o]) st) (Ok (length (heap st))).
Proof.
  intros H. unfold cloneDeep. rewrite (bind_Ok _ _ _ _ _ _ (deref_Some _ _ _ H)).
  rewrite prepend_nil. by destruct o.
Qed.

Lemma applyChangesToModel_Some target o source st :
  heap st !! target = Some o →
  applyChangesToModel target source st
  = mkOutcome [] (set_heap (<[target := mkObj (obj_proto o) (source ∪ obj_props o)]> (heap st)) st)
              (Ok tt).
Proof.
  intros H. unfold applyChangesToModel.
  rewrite (bind_Ok _ _ _ _ _ _ (deref_Some _ _ _ H)). by rewrite prepend_nil.
Qed.

Lemma getOne_run q st :
  getOne q st = mkOutcome [EGetOne q] st (Ok (head (select q st))).
Proof. done. Qed.

Lemma getMany_run q st :
  getMany q st = mkOutcome [EGetMany q] st (Ok (select q st)).
Proof. done. Qed.

(** [manager.save] always returns; what it stores and returns does not
    depend on the manager, and it leaves the model objects alone. *)
Lemma manager_save_run entity st :
  ∃ st' saved,
    (∀ mgr, manager_save mgr entity st = mkOutcome [ESave mgr entity] st' (Ok saved)) ∧
    heap st' = heap st.
Proof.
  unfold manager_save, mbind, M_bind, bind, emit, gets, modify, ret, prepend. simpl.
  destruct (get entity (pk_col st)) eqn:E; simpl;
    try (eexists _, _; split; [intros; reflexivity|done]);
    destruct (existsb _ (rows st)); simpl;
    eexists _, _; (split; [intros; reflexivity|done]).
Qed.

(** *** Queries *)

Lemma matches_pk pk id (row : props) :
  matches {[ pk := VNum id ]} row = true ↔ row !! pk = Some (VNum id).
Proof. unfold matches. by rewrite bool_decide_eq_true, map_Forall_singleton. Qed.

Lemma select_not_stored pk id rels st :
  ¬ stored pk id st → select (mkQuery {[ pk := VNum id ]} rels) st = [].
Proof.
  unfold stored, select. simpl. induction (rows st) as [|row rs IH]; intros Hn; [done|].
  simpl. destruct (matches _ row) eqn:E.
  - apply matches_pk in E. destruct Hn. exists row. split; [left|done].
  - apply IH. intros (r & Hr & Hpk). apply Hn. exists r. split; [by right|done].
Qed.

Lemma filterR_Ok {A} (f : A → result bool) (l : list A) :
  (∀ x, x ∈ l → ∃ b, f x = Ok b) →
  ∃ r, filterR f l = Ok r ∧ ∀ x, x ∈ r ↔ x ∈ l ∧ f x = Ok true.
Proof.
  induction l as [|a l IH]; intros Hl.
  - exists []. split; [done|]. intros x. split; [inversion 1|intros [H _]; inversion H].
  - destruct (Hl a) as [b Hb]; [left|].
    destruct IH as (r & Hr & Hmem); [intros x Hx; apply Hl; by right|].
    exists (if b then a :: r else r). simpl. rewrite Hb, Hr. simpl. split; [done|].
    intros x. destruct b.
    + rewrite !elem_of_cons, Hmem. split.
      * intros [->|[? ?]]; auto.
      * intros [[->|?] ?]; auto.
    + rewrite elem_of_cons, Hmem. split.
      * intros [? ?]; auto.
      * intros [[->|Hx] Hf]; [congruence|done].
Qed.

Lemma relation_test_true s cls k :
  relation_test s cls k = Ok true ↔
  ∃ d, getFieldOptions s cls k = Some d ∧
       (get d "appType" = VStr "relation" ∨ get d "appType" = VStr "relationId").
Proof.
  unfold relation_test, is_relation_type.
  destruct (getFieldOptions s cls k) as [d|].
  - split.
    + intros [= H]. exists d. split; [done|].
      apply orb_true_iff in H as [H|H]; apply bool_decide_eq_true in H; auto.
    + intros (d' & [= <-] & [H|H]); rewrite H; done.
  - split; [done|]. by intros (d & ? & _).
Qed.

Lemma elem_of_List_filter {A} (f : A → bool) (l : list A) x :
  x ∈ List.filter f l ↔ x ∈ l ∧ f x = true.
Proof. rewrite !list_elem_of_In. apply filter_In. Qed.

Section repository.
Variable SearchInputDto : Type.
Variable SearchHelper_search : SearchInputDto → SearchQuery → M (SearchResultDto props).
Variable mte : jsobj → props.
Variable meta : MetaStore.
Variable this : CrudRepository.
Variable lodash_has : props → string → bool.
Variable exponent_notation : Z → string.

Lemma entityToModel_unset obj st :
  modelClass this = None →
  entityToModel this obj st = mkOutcome [] st (Throw (Misconfigured this)).
Proof. intros H. unfold entityToModel. by rewrite H. Qed.

Lemma entityToModel_set cls obj st :
  modelClass this = Some cls →
  entityToModel this obj st
  = mkOutcome [] (set_heap (heap st ++ [mkObj cls obj]) st) (Ok (length (heap st))).
Proof. intros H. unfold entityToModel. by rewrite H. Qed.

Lemma findOne_none q st :
  select q st = [] →
  findOne this (AQuery q) st = mkOutcome [EGetOne q] st (Ok None).
Proof.
  intros H. unfold findOne. simpl.
  rewrite (bind_Ok _ _ _ _ _ _ (getOne_run _ _)). by rewrite H.
Qed.

Lemma findOne_unset q row rs st :
  select q st = row :: rs → modelClass this = None →
  findOne this (AQuery q) st = mkOutcome [EGetOne q] st (Throw (Misconfigured this)).
Proof.
  intros H Hc. unfold findOne. simpl.
  rewrite (bind_Ok _ _ _ _ _ _ (getOne_run _ _)). rewrite H. simpl.
  by rewrite (bind_Throw _ _ _ _ _ _ (entityToModel_unset _ _ Hc)).
Qed.

Lemma findOne_set q row rs cls st :
  select q st = row :: rs → modelClass this = Some cls →
  findOne this (AQuery q) st
  = mkOutcome [EGetOne q] (set_heap (heap st ++ [mkObj cls row]) st)
              (Ok (Some (length (heap st)))).
Proof.
  intros H Hc. unfold findOne. simpl.
  rewrite (bind_Ok _ _ _ _ _ _ (getOne_run _ _)). rewrite H. simpl.
  by rewrite (bind_Ok _ _ _ _ _ _ (entityToModel_set _ _ _ Hc)).
Qed.

(** [rows.map(row => this.entityToModel(row))] *)
Lemma mapM_entityToModel_unset row rs st :
  modelClass this = None →
  mapM (entityToModel this) (row :: rs) st = mkOutcome [] st (Throw (Misconfigured this)).
Proof.
  intros Hc. simpl. by rewrite (bind_Throw _ _ _ _ _ _ (entityToModel_unset _ _ Hc)).
Qed.

Lemma mapM_entityToModel_set cls rs st :
  modelClass this = Some cls →
  mapM (entityToModel this) rs st
  = mkOutcome [] (set_heap (heap st ++ map (mkObj cls) rs) st)
              (Ok (seq (length (heap st)) (length rs))).
Proof.
  intros Hc. revert st. induction rs as [|row rs IH]; intros st; simpl.
  - unfold ret, mret, M_ret, set_heap. rewrite app_nil_r. by destruct st.
  - rewrite (bind_Ok _ _ _ _ _ _ (entityToModel_set _ _ _ Hc)).
    rewrite (bind_Ok _ _ _ _ _ _ (IH _)). simpl.
    unfold prepend, set_heap. simpl. rewrite <- app_assoc, length_app. simpl.
    by rewrite Nat.add_1_r.
Qed.

(** *** Reading *)

(** C9: a repository whose [modelClass] is unset throws the [Misconfigured]
    error, which names the repository class, whenever it maps a persistence
    result: in [findOne] when a row matches, in [findMany] and [search] when
    there is a row or item to map. With [modelClass] set, each row comes back
    as a new object of that class made by [anyToModel]. [findOne] returns
    [null] when no row matches. *)
Theorem mapping_needs_modelClass (q : conditionOrQuery) (dto : SearchInputDto)
    (sq : SearchQuery) (st : state) :
  let dbQuery := createQueryBuilder q in
  (∀ obj, modelClass this = None →
     entityToModel this obj st = mkOutcome [] st (Throw (Misconfigured this))) ∧
  (select dbQuery st = [] →
     findOne this q st = mkOutcome [EGetOne dbQuery] st (Ok None)) ∧
  (∀ row rs, select dbQuery st = row :: rs →
     match modelClass this with
     | None =>
         findOne this q st = mkOutcome [EGetOne dbQuery] st (Throw (Misconfigured this)) ∧
         findMany this q st = mkOutcome [EGetMany dbQuery] st (Throw (Misconfigured this))
     | Some cls =>
         findOne this q st
         = mkOutcome [EGetOne dbQuery] (set_heap (heap st ++ [mkObj cls row]) st)
                     (Ok (Some (length (heap st)))) ∧
         findMany this q st
         = mkOutcome [EGetMany dbQuery]
                     (set_heap (heap st ++ map (mkObj cls) (row :: rs)) st)
                     (Ok (seq (length (heap st)) (length (row :: rs))))
     end) ∧
  (∀ t st' item others n,
     SearchHelper_search dto sq st = mkOutcome t st' (Ok (mkResult (item :: others) n)) →
     match modelClass this with
     | None =>
         search SearchInputDto SearchHelper_search this dto sq st
         = mkOutcome t st' (Throw (Misconfigured this))
     | Some cls =>
         search SearchInputDto SearchHelper_search this dto sq st
         = mkOutcome t (set_heap (heap st' ++ map (mkObj cls) (item :: others)) st')
                     (Ok (mkResult (seq (length (heap st')) (length (item :: others))) n))
     end).
Proof.
  intros dbQuery. subst dbQuery.
  assert (HfindOne : findOne this q = findOne this (AQuery (createQueryBuilder q))) by done.
  assert (HfindMany : ∀ st0, findMany this q st0
            = prepend [EGetMany (createQueryBuilder q)]
                (mapM (entityToModel this) (select (createQueryBuilder q) st0) st0)).
  { intros st0. unfold findMany. by rewrite (bind_Ok _ _ _ _ _ _ (getMany_run _ _)). }
  split; [intros obj Hc; by apply entityToModel_unset|].
  split; [intros Hsel; rewrite HfindOne; by apply findOne_none|].
  split.
  - intros row rs Hsel. destruct (modelClass this) as [cls|] eqn:Hc.
    + split; [rewrite HfindOne; by eapply findOne_set|].
      rewrite HfindMany, Hsel. by rewrite (mapM_entityToModel_set cls).
    + split; [rewrite HfindOne; by eapply findOne_unset|].
      rewrite HfindMany, Hsel. by rewrite mapM_entityToModel_unset.
  - intros t st' item others n Hs. unfold search.
    rewrite (bind_Ok _ _ _ _ _ _ Hs). cbn [items total].
    destruct (modelClass this) as [cls|] eqn:Hc.
    + rewrite (bind_Ok _ _ _ _ _ _ (mapM_entityToModel_set cls _ _ Hc)).
      unfold prepend. simpl. by rewrite app_nil_r.
    + rewrite (bind_Throw _ _ _ _ _ _ (mapM_entityToModel_unset _ _ _ Hc)).
      by rewrite prepend_mk, app_nil_r.
Qed.

(** *** [update]: the locate step *)

Lemma update_searchQuery_Ok id (m : jsobj) q :
  update_searchQuery meta this lodash_has id m = Ok q →
  ∃ declared, getMetaRelations meta (obj_proto m) = Ok declared ∧
    q = mkQuery {[ primaryKey this := VNum id ]}
                (List.filter (lodash_has (obj_props m)) declared).
Proof.
  unfold update_searchQuery. destruct (getMetaRelations _ _) as [d|]; [|done].
  intros [= <-]. by exists d.
Qed.


(** When no row has the id, [update] throws without having invoked a hook
    or saved anything, the state unchanged: the [NotFound] error, right
    after the locate query, when the Search Query could be built; otherwise
    what [getMetaRelations] threw, before any query. *)
Lemma update_not_found id model m txh st :
  heap st !! model = Some m →
  ¬ stored (primaryKey this) id st →
  let o := update mte meta this lodash_has exponent_notation id model txh st in
  (∃ e, o_res o = Throw e) ∧
  o_state o = st ∧
  forallb (λ e, negb (is_hook_event e)) (o_trace o) = true ∧
  ∀ q, update_searchQuery meta this lodash_has id m = Ok q →
       o = mkOutcome [EGetOne q] st (Throw (NotFound exponent_notation id)).
Proof.
  intros Hm Hn o. subst o. unfold update.
  rewrite (bind_Ok _ _ _ _ _ _ (deref_Some _ _ _ Hm)), prepend_nil.
  destruct (update_searchQuery meta this lodash_has id m) as [q|e] eqn:Hq.
  - assert (Hsel : select q st = []).
    { apply update_searchQuery_Ok in Hq as (d & _ & ->). by apply select_not_stored. }
    rewrite (bind_Ok _ _ _ [] st q) by done.
    rewrite (bind_Ok _ _ _ _ _ _ (findOne_none _ _ Hsel)).
    rewrite !prepend_nil.
    repeat split; try done; [by eexists|]. by intros ? [= <-].
  - rewrite (bind_Throw _ _ _ [] st e) by done.
    repeat split; try done. by eexists.
Qed.

(** When every listed field of the model's class has a descriptor, the
    Search Query is built, and its relations are the listed fields whose
    descriptor is a relation's and for which [_.has] holds on the incoming
    model. *)
Lemma update_searchQuery_described id (m : jsobj) :
  described meta (obj_proto m) →
  ∃ q, update_searchQuery meta this lodash_has id m = Ok q ∧
       condition q = {[ primaryKey this := VNum id ]} ∧
       (∀ k, k ∈ relations q ↔
             declared_relation meta (obj_proto m) k ∧ lodash_has (obj_props m) k = true).
Proof.
  intros Hd. unfold update_searchQuery at 1, getMetaRelations.
  destruct (filterR_Ok (relation_test meta (obj_proto m)) (getMetaFields meta (obj_proto m)))
    as (r & Hr & Hmem).
  { intros k [d Hk]%Hd. unfold relation_test. rewrite Hk. by eexists. }
  rewrite Hr. simpl. eexists. split; [done|]. split; [done|].
  simpl. intros k. rewrite elem_of_List_filter, Hmem, relation_test_true.
  unfold declared_relation. tauto.
Qed.

(** *** [update]: from the previous state to the save *)

Lemma call_beforeSave_run lp ln p n st :
  heap st !! lp = Some p → heap st !! ln = Some n →
  call_beforeSave this (Some lp) ln st
  = prepend [EBeforeSave (Some p) n] (beforeSave (hooks this) (Some lp) ln st).
Proof.
  intros Hp Hn. unfold call_beforeSave, deref_opt.
  rewrite (bind_Ok _ _ _ [] st (Some p)), prepend_nil.
  2:{ by rewrite (bind_Ok _ _ _ _ _ _ (deref_Some _ _ _ Hp)). }
  rewrite (bind_Ok _ _ _ _ _ _ (deref_Some _ _ _ Hn)), prepend_nil.
  by erewrite (bind_Ok (emit _)) by done.
Qed.

Lemma call_afterSave_run lp ln p n st :
  heap st !! lp = Some p → heap st !! ln = Some n →
  call_afterSave this (Some lp) ln st
  = prepend [EAfterSave (Some p) n] (afterSave (hooks this) (Some lp) ln st).
Proof.
  intros Hp Hn. unfold call_afterSave, deref_opt.
  rewrite (bind_Ok _ _ _ [] st (Some p)), prepend_nil.
  2:{ by rewrite (bind_Ok _ _ _ _ _ _ (deref_Some _ _ _ Hp)). }
  rewrite (bind_Ok _ _ _ _ _ _ (deref_Some _ _ _ Hn)), prepend_nil.
  by erewrite (bind_Ok (emit _)) by done.
Qed.

(** Whatever the hooks do, the callback starts by handing the previous and
    the next state, as they are, to [beforeSave]. *)
Lemma saveHandler_starts lp ln p n mgr st :
  heap st !! lp = Some p → heap st !! ln = Some n →
  ∃ rest, o_trace (saveHandler mte this (Some lp) ln mgr st)
          = EBeforeSave (Some p) n :: rest.
Proof.
  intros Hp Hn. unfold saveHandler.
  destruct (bind_trace_prefix (call_beforeSave this (Some lp) ln)
    (λ _, modelToEntity mte ln ≫= λ e, manager_save mgr e ≫= λ entity,
          applyChangesToModel ln entity ≫= λ _,
          call_afterSave this (Some lp) ln ≫= λ _, ret ln) st) as [rest ->].
  rewrite (call_beforeSave_run _ _ _ _ _ Hp Hn). simpl. by eexists.
Qed.

(** With the hooks of [CrudRepository] itself, the callback persists the
    entity of the next state through the manager it was given. *)
Lemma saveHandler_default lp ln p n st :
  hooks this = default_hooks →
  heap st !! lp = Some p → heap st !! ln = Some n → lp ≠ ln →
  ∃ st' saved, ∀ mgr,
    saveHandler mte this (Some lp) ln mgr st
    = mkOutcome [EBeforeSave (Some p) n; ESave mgr (mte n);
                 EAfterSave (Some p) (mkObj (obj_proto n) (saved ∪ obj_props n))]
                st' (Ok ln).
Proof.
  intros Hh Hp Hn Hne.
  destruct (manager_save_run (mte n) st) as (st1 & saved & Hsave & Hheap).
  exists (set_heap (<[ln := mkObj (obj_proto n) (saved ∪ obj_props n)]> (heap st1)) st1), saved.
  intros mgr. unfold saveHandler.
  rewrite (bind_Ok (call_beforeSave _ _ _) _ st [EBeforeSave (Some p) n] st tt).
  2:{ rewrite (call_beforeSave_run _ _ _ _ _ Hp Hn), Hh. done. }
  rewrite (bind_Ok (modelToEntity _ _) _ st [] st (mte n)).
  2:{ unfold modelToEntity. by rewrite (bind_Ok _ _ _ _ _ _ (deref_Some _ _ _ Hn)). }
  rewrite (bind_Ok _ _ _ _ _ _ (Hsave mgr)).
  assert (Hn1 : heap st1 !! ln = Some n) by by rewrite Hheap.
  rewrite (bind_Ok _ _ _ _ _ _ (applyChangesToModel_Some _ _ _ _ Hn1)).
  erewrite (bind_Ok (call_afterSave _ _ _)).
  2:{ rewrite (call_afterSave_run lp ln p (mkObj (obj_proto n) (saved ∪ obj_props n))), Hh.
      - done.
      - simpl. rewrite list_lookup_insert_ne by done. by rewrite Hheap.
      - simpl. rewrite list_lookup_insert_eq; [done|].
        apply lookup_lt_Some in Hn1. done. }
  reflexivity.
Qed.

Lemma update_located id model m q row rs cls txh st :
  heap st !! model = Some m →
  update_searchQuery meta this lodash_has id m = Ok q →
  select q st = row :: rs →
  modelClass this = Some cls →
  let lp := length (heap st) in
  let ln := S lp in
  let st2 := set_heap (heap st ++ [mkObj cls row; mkObj cls (obj_props m ∪ row)]) st in
  update mte meta this lodash_has exponent_notation id model txh st
  = prepend [EGetOne q]
      ((run_saveHandler (saveHandler mte this (Some lp) ln) txh ≫= λ _, ret ln) st2).
Proof.
  intros Hm Hq Hsel Hc lp ln st2. unfold update.
  rewrite (bind_Ok _ _ _ _ _ _ (deref_Some _ _ _ Hm)), prepend_nil.
  rewrite Hq. rewrite (bind_Ok _ _ _ [] st q) by done. rewrite prepend_nil.
  rewrite (bind_Ok _ _ _ _ _ _ (findOne_set _ _ _ _ _ Hsel Hc)). f_equal.
  erewrite (bind_Ok (cloneDeep _)).
  2:{ apply (cloneDeep_Some _ (mkObj cls row)). simpl.
      by rewrite lookup_app_r, Nat.sub_diag. }
  rewrite prepend_nil.
  erewrite (bind_Ok (deref model)).
  2:{ apply (deref_Some _ m). simpl. rewrite <- app_assoc. by apply lookup_app_l_Some. }
  rewrite prepend_nil.
  erewrite (bind_Ok (applyChangesToModel _ _)).
  2:{ apply (applyChangesToModel_Some _ (mkObj cls row)). simpl.
      rewrite length_app. simpl. rewrite Nat.add_1_r.
      rewrite lookup_app_r; rewrite length_app; simpl; [|lia].
      by replace (S (length (heap st)) - (length (heap st) + 1)) with 0 by lia. }
  rewrite prepend_nil.
  cbn [heap set_heap obj_proto obj_props pk_col rows next_id].
  rewrite length_app. cbn [length]. rewrite Nat.add_1_r. fold lp ln.
  f_equal. subst st2. unfold set_heap. f_equal.
  replace ln with (length (heap st ++ [mkObj cls row]) + 0)
    by (subst ln lp; rewrite length_app; simpl; lia).
  rewrite insert_app_r. simpl. by rewrite <- app_assoc.
Qed.

Lemma located_heap st (prev next : jsobj) :
  heap (set_heap (heap st ++ [prev; next]) st) !! length (heap st) = Some prev ∧
  heap (set_heap (heap st ++ [prev; next]) st) !! S (length (heap st)) = Some next.
Proof.
  simpl. split.
  - by rewrite lookup_app_r, Nat.sub_diag.
  - rewrite lookup_app_r by lia.
    by replace (S (length (heap st)) - length (heap st)) with 1 by lia.
Qed.

Lemma transaction_trace {A} (run : manager → M A) st :
  o_trace (transaction run st)
  = ETxBegin :: o_trace (run TxManager st)
    ++ [match o_res (run TxManager st) with Ok _ => ETxCommit | Throw _ => ETxRollback end].
Proof. unfold transaction. by destruct (o_res (run TxManager st)). Qed.

(** The trace of [update] once the previous state is found: the locate
    query, then the callback, directly or through the wrapper inside a
    transaction. *)
Lemma update_trace_direct id model m q row rs cls st :
  heap st !! model = Some m →
  update_searchQuery meta this lodash_has id m = Ok q →
  select q st = row :: rs →
  modelClass this = Some cls →
  o_trace (update mte meta this lodash_has exponent_notation id model None st)
  = EGetOne q ::
    o_trace (saveHandler mte this (Some (length (heap st))) (S (length (heap st)))
               DefaultManager
               (set_heap (heap st ++ [mkObj cls row; mkObj cls (obj_props m ∪ row)]) st)).
Proof.
  intros Hm Hq Hsel Hc.
  rewrite (update_located id model m q row rs cls None st Hm Hq Hsel Hc).
  unfold run_saveHandler, prepend. cbn [o_trace]. by rewrite !bind_ret_trace.
Qed.

Lemma update_trace_wrapped id model m q row rs cls (h : TransactionHandler) st :
  heap st !! model = Some m →
  update_searchQuery meta this lodash_has id m = Ok q →
  select q st = row :: rs →
  modelClass this = Some cls →
  let inner :=
    h _ (saveHandler mte this (Some (length (heap st))) (S (length (heap st))) TxManager)
      (set_heap (heap st ++ [mkObj cls row; mkObj cls (obj_props m ∪ row)]) st) in
  o_trace (update mte meta this lodash_has exponent_notation id model (Some h) st)
  = EGetOne q :: ETxBegin :: o_trace inner
    ++ [match o_res inner with Ok _ => ETxCommit | Throw _ => ETxRollback end].
Proof.
  intros Hm Hq Hsel Hc inner.
  rewrite (update_located id model m q row rs cls (Some h) st Hm Hq Hsel Hc).
  unfold run_saveHandler, prepend. cbn [o_trace].
  by rewrite bind_ret_trace, transaction_trace.
Qed.

(** C5: when the previous state exists, the next state is a new object of
    the class of the previous one, holding the properties of the incoming
    model laid over those of the previous state, property by property; this
    is what [beforeSave] receives, next to the untouched previous state,
    and, with the hooks of [CrudRepository] itself, what is persisted. *)
Theorem update_next_state id model m q row rs cls st :
  heap st !! model = Some m →
  update_searchQuery meta this lodash_has id m = Ok q →
  select q st = row :: rs →
  modelClass this = Some cls →
  let prev := mkObj cls row in
  let next := mkObj cls (obj_props m ∪ row) in
  (∀ k v, obj_props m !! k = Some v → obj_props next !! k = Some v) ∧
  (∀ k, obj_props m !! k = None → obj_props next !! k = obj_props prev !! k) ∧
  (∃ rest, o_trace (update mte meta this lodash_has exponent_notation id model None st)
           = EGetOne q :: EBeforeSave (Some prev) next :: rest) ∧
  (∃ rest, o_trace (update mte meta this lodash_has exponent_notation id model (Some run_callback) st)
           = EGetOne q :: ETxBegin :: EBeforeSave (Some prev) next :: rest) ∧
  (hooks this = default_hooks →
   ∃ saved,
     o_trace (update mte meta this lodash_has exponent_notation id model None st)
     = [EGetOne q; EBeforeSave (Some prev) next; ESave DefaultManager (mte next);
        EAfterSave (Some prev) (mkObj cls (saved ∪ obj_props next))] ∧
     o_trace (update mte meta this lodash_has exponent_notation id model (Some run_callback) st)
     = [EGetOne q; ETxBegin; EBeforeSave (Some prev) next; ESave TxManager (mte next);
        EAfterSave (Some prev) (mkObj cls (saved ∪ obj_props next)); ETxCommit]).
Proof.
  intros Hm Hq Hsel Hc prev next.
  destruct (located_heap st prev next) as [Hp Hn].
  split; [intros k v Hk; simpl; by apply lookup_union_Some_l|].
  split; [intros k Hk; simpl; by apply lookup_union_r|].
  rewrite (update_trace_direct id model m q row rs cls st Hm Hq Hsel Hc).
  rewrite (update_trace_wrapped id model m q row rs cls run_callback st Hm Hq Hsel Hc).
  unfold run_callback. rewrite bind_ret_trace, bind_ret_res.
  fold prev next.
  split; [|split].
  - destruct (saveHandler_starts _ _ _ _ DefaultManager _ Hp Hn) as [rest ->]. by eexists.
  - destruct (saveHandler_starts _ _ _ _ TxManager _ Hp Hn) as [rest ->]. by eexists.
  - intros Hh.
    destruct (saveHandler_default _ _ _ _ _ Hh Hp Hn) as (st' & saved & Hrun); [lia|].
    exists saved. by rewrite !Hrun.
Qed.

(** C6 (as amended): with a transaction wrapper, [update] first locates
    the previous state, outside the transaction; then it opens the
    transaction and hands the wrapper one callback; what the wrapper runs
    lies between the begin and the end of the transaction, the callback
    persists through the transaction's manager, and when the wrapper throws
    the transaction is rolled back, leaving the rows as they were. *)
Theorem update_transaction_scope id model m q row rs cls (h : TransactionHandler) st :
  heap st !! model = Some m →
  update_searchQuery meta this lodash_has id m = Ok q →
  select q st = row :: rs →
  modelClass this = Some cls →
  let prev := mkObj cls row in
  let next := mkObj cls (obj_props m ∪ row) in
  let callback :=
    saveHandler mte this (Some (length (heap st))) (S (length (heap st))) TxManager in
  let inner := h _ callback (set_heap (heap st ++ [prev; next]) st) in
  let o := update mte meta this lodash_has exponent_notation id model (Some h) st in
  o_trace o
  = EGetOne q :: ETxBegin :: o_trace inner
    ++ [match o_res inner with Ok _ => ETxCommit | Throw _ => ETxRollback end] ∧
  (∀ e, o_res inner = Throw e → o_res o = Throw e ∧ rows (o_state o) = rows st) ∧
  (hooks this = default_hooks →
   ∃ saved,
     o_trace (callback (set_heap (heap st ++ [prev; next]) st))
     = [EBeforeSave (Some prev) next; ESave TxManager (mte next);
        EAfterSave (Some prev) (mkObj cls (saved ∪ obj_props next))]).
Proof.
  intros Hm Hq Hsel Hc prev next callback inner o.
  destruct (located_heap st prev next) as [Hp Hn].
  split; [by apply (update_trace_wrapped id model m q row rs cls h st)|]. split.
  - intros e He. subst o.
    rewrite (update_located id model m q row rs cls (Some h) st Hm Hq Hsel Hc).
    unfold run_saveHandler.
    assert (Ht : transaction (λ manager, h _ (saveHandler mte this
                    (Some (length (heap st))) (S (length (heap st))) manager))
                   (set_heap (heap st ++ [prev; next]) st)
                 = mkOutcome (ETxBegin :: o_trace inner ++ [ETxRollback])
                     (set_rows (rows st) (o_state inner)) (Throw e)).
    { unfold transaction. fold callback inner. by rewrite He. }
    by rewrite (bind_Throw _ _ _ _ _ _ Ht).
  - intros Hh.
    destruct (saveHandler_default _ _ _ _ _ Hh Hp Hn) as (st' & saved & Hrun); [lia|].
    exists saved. subst callback. by rewrite Hrun.
Qed.

(** *** [remove] *)

(** C4, where it fails: without a transaction handler [remove] only calls
    [manager.remove]; neither [beforeDelete] nor [afterDelete] is invoked. *)
Theorem remove_without_handler_skips_hooks id st :
  o_trace (remove this id None st) = [ERemove DefaultManager (VNum id)] ∧
  forallb (λ e, negb (is_hook_event e)) (o_trace (remove this id None st)) = true.
Proof. done. Qed.

(** With a handler that runs the callback, [beforeDelete] is invoked inside
    the transaction, before [manager.remove]. The repository hands the bare
    id to [manager.remove], which rejects what is no entity: the call throws,
    [afterDelete] is not reached and the transaction is rolled back. *)
Lemma remove_with_handler_trace id st :
  hooks this = default_hooks →
  remove this id (Some run_callback) st
  = mkOutcome [ETxBegin; EBeforeDelete id; ERemove TxManager (VNum id); ETxRollback]
              st (Throw (MustBeEntityError "remove" (VNum id))).
Proof.
  intros Hh. unfold remove, call_beforeDelete, call_afterDelete. rewrite Hh.
  unfold transaction, run_callback, manager_remove, mbind, M_bind, bind, emit, throw.
  simpl. by destruct st.
Qed.

End repository.

(** The hooks of [CrudRepository] itself do nothing. *)
Lemma default_hooks_noop prevModel nextModel id st :
  beforeSave default_hooks prevModel nextModel st = mkOutcome [] st (Ok tt) ∧
  afterSave default_hooks prevModel nextModel st = mkOutcome [] st (Ok tt) ∧
  beforeDelete default_hooks id st = mkOutcome [] st (Ok tt) ∧
  afterDelete default_hooks id st = mkOutcome [] st (Ok tt).
Proof. done. Qed.

(** *** [create] *)

(** C3, where it fails: [create({id: 99, name: 'a'})] in the version with
    the hooks hands the model to [beforeSave] and to [manager.save] with its
    [id] still 99, and the row is stored under 99. *)
Lemma create_keeps_preset_key :
  let o := Repository.create obj_props article_repo 0 None st_preset in
  o_trace o = [EBeforeSave None preset; ESave DefaultManager (obj_props preset);
               EAfterSave None preset] ∧
  rows (o_state o) = [obj_props preset] ∧
  get (obj_props preset) "id" = VNum 99.
Proof. vm_compute. done. Qed.

(** The version built on [save] clears the key first: the entity reaches
    [manager.save] with the primary key [undefined]. *)
Lemma create_clears_key (mte : jsobj → props) (this : CrudRepository) model m st :
  heap st !! model = Some m →
  ∃ rest,
    o_trace (SaveRepository.create mte this model None st)
    = ESave DefaultManager
        (mte (mkObj (obj_proto m) (<[primaryKey this := VUndefined]> (obj_props m))))
      :: rest.
Proof.
  intros Hm. unfold SaveRepository.create, assign.
  erewrite (bind_Ok (deref model ≫= _)).
  2:{ by rewrite (bind_Ok _ _ _ _ _ _ (deref_Some _ _ _ Hm)), prepend_nil. }
  rewrite prepend_nil. unfold SaveRepository.save. rewrite bind_ret_trace.
  unfold SaveRepository.saveInternal.
  erewrite (bind_Ok (modelToEntity _ _)).
  2:{ unfold modelToEntity. erewrite (bind_Ok (deref model)); [done|].
      apply deref_Some. simpl. apply list_lookup_insert_eq.
      by apply lookup_lt_Some in Hm. }
  rewrite prepend_nil.
  match goal with
  | |- ∃ _, o_trace ((?m ≫= ?f) ?s) = _ =>
      destruct (bind_trace_prefix m f s) as [rest ->]
  end.
  destruct (manager_save_run
              (mte (mkObj (obj_proto m) (<[primaryKey this := VUndefined]> (obj_props m))))
              (set_heap (<[model := mkObj (obj_proto m)
                                      (<[primaryKey this := VUndefined]> (obj_props m))]>
                           (heap st)) st))
    as (st' & saved & -> & _).
  by eexists.
Qed.

Lemma create_generates_key :
  let o := SaveRepository.create obj_props article_repo 0 None st_preset in
  o_trace o
  = [ESave DefaultManager (<["id" := VUndefined]> (obj_props preset))] ∧
  rows (o_state o) = [<["id" := VNum 1]> (obj_props preset)].
Proof. vm_compute. done. Qed.

(** *** The properties at the example inputs *)

Lemma article_described : described article_meta Article.
Proof.
  intros k Hk. change (getMetaFields article_meta Article) with ["title"; "author"; "tags"] in Hk.
  repeat (apply elem_of_cons in Hk as [->|Hk]; [by eexists|]).
  by apply elem_of_nil in Hk.
Qed.

Lemma article_5_not_stored : ¬ stored "id" 5 st_patch.
Proof.
  intros (row & Hrow & Hpk). simpl in Hrow.
  apply list_elem_of_singleton in Hrow as ->. done.
Qed.

(** The example of the specification: declared relations [author] and
    [tags], incoming model [{title: 'x', tags: [...]}], relations [['tags']]. *)
Lemma article_query :
  update_searchQuery article_meta article_repo has_dotted 1 patch
  = Ok (mkQuery {[ "id" := VNum 1 ]} ["tags"]).
Proof. vm_compute. done. Qed.

Lemma article_selected :
  select (mkQuery {[ "id" := VNum 1 ]} ["tags"]) st_patch = [row1].
Proof. vm_compute. done. Qed.

(** A relation sub-object is replaced as a whole: laying [{author: {id: 8}}]
    over a previous state whose author is [{id: 7, name: 'bob'}] leaves an
    author without name. *)
Lemma relation_replaced_wholesale :
  let st := mkState [mkObj Article {[ "author" := VObj {[ "id" := VNum 8 ]} ]}] "id" [row1] 2 in
  ∃ prev next rest,
    o_trace (update obj_props article_meta article_repo has_dotted exponent_unused 1 0 None st)
    = EGetOne (mkQuery {[ "id" := VNum 1 ]} ["author"])
      :: EBeforeSave (Some prev) next :: rest ∧
    get (obj_props prev) "author" = VObj {[ "id" := VNum 7; "name" := VStr "bob" ]} ∧
    get (obj_props next) "author" = VObj {[ "id" := VNum 8 ]} ∧
    get (obj_props next) "title" = VStr "old".
Proof. vm_compute. by eexists _, _, _. Qed.

Lemma update_not_found_article :
  heap st_patch !! 0 = Some patch ∧
  ¬ stored (primaryKey article_repo) 5 st_patch ∧
  o_state (update obj_props article_meta article_repo has_dotted exponent_unused 5 0 None st_patch) = st_patch.
Proof.
  split; [done|]. split; [apply article_5_not_stored|].
  apply (update_not_found obj_props article_meta article_repo has_dotted exponent_unused 5 0 patch None st_patch);
    [done|apply article_5_not_stored].
Qed.

Lemma update_next_state_witness :
  heap st_patch !! 0 = Some patch ∧
  update_searchQuery article_meta article_repo has_dotted 1 patch
  = Ok (mkQuery {[ "id" := VNum 1 ]} ["tags"]) ∧
  select (mkQuery {[ "id" := VNum 1 ]} ["tags"]) st_patch = [row1] ∧
  modelClass article_repo = Some Article ∧
  ∃ rest, o_trace (update obj_props article_meta article_repo has_dotted exponent_unused 1 0 None st_patch)
          = EGetOne (mkQuery {[ "id" := VNum 1 ]} ["tags"])
            :: EBeforeSave (Some (mkObj Article row1))
                           (mkObj Article (obj_props patch ∪ row1))
            :: rest.
Proof.
  split; [done|]. split; [apply article_query|]. split; [apply article_selected|].
  split; [done|].
  apply (update_next_state obj_props article_meta article_repo has_dotted exponent_unused 1 0 patch _ row1 [] Article
           st_patch eq_refl article_query article_selected eq_refl).
Defined.

Lemma update_transaction_scope_witness :
  heap st_patch !! 0 = Some patch ∧
  update_searchQuery article_meta article_repo has_dotted 1 patch
  = Ok (mkQuery {[ "id" := VNum 1 ]} ["tags"]) ∧
  select (mkQuery {[ "id" := VNum 1 ]} ["tags"]) st_patch = [row1] ∧
  modelClass article_repo = Some Article ∧
  ∃ saved,
    o_trace (saveHandler obj_props article_repo (Some 1) 2 TxManager
               (set_heap (heap st_patch
                          ++ [mkObj Article row1; mkObj Article (obj_props patch ∪ row1)])
                         st_patch))
    = [EBeforeSave (Some (mkObj Article row1)) (mkObj Article (obj_props patch ∪ row1));
       ESave TxManager (obj_props patch ∪ row1);
       EAfterSave (Some (mkObj Article row1))
                  (mkObj Article (saved ∪ (obj_props patch ∪ row1)))].
Proof.
  split; [done|]. split; [apply article_query|]. split; [apply article_selected|].
  split; [done|].
  apply (update_transaction_scope obj_props article_meta article_repo has_dotted exponent_unused 1 0 patch _ row1 []
           Article run_callback st_patch eq_refl article_query article_selected eq_refl).
  done.
Defined.

(** C6 (as stated) fails: with a wrapper that just runs the callback, the
    locate query is the first event, the transaction begins after it, and so
    not every call to the persistence layer lies inside the transaction. *)
Lemma update_locates_outside_transaction :
  let t := o_trace (update obj_props article_meta article_repo has_dotted exponent_unused 1 0
                      (Some run_callback) st_patch) in
  t !! 0 = Some (EGetOne (mkQuery {[ "id" := VNum 1 ]} ["tags"])) ∧
  t !! 1 = Some ETxBegin ∧
  within_transaction false t = false.
Proof. vm_compute. done. Qed.

Lemma mapping_needs_modelClass_witness :
  select (mkQuery {[ "id" := VNum 1 ]} []) st_patch = [row1] ∧
  findOne new_CrudRepository (ACondition {[ "id" := VNum 1 ]}) st_patch
  = mkOutcome [EGetOne (mkQuery {[ "id" := VNum 1 ]} [])] st_patch
              (Throw (Misconfigured new_CrudRepository)).
Proof.
  assert (Hsel : select (mkQuery {[ "id" := VNum 1 ]} []) st_patch = [row1])
    by (vm_compute; reflexivity).
  split; [exact Hsel|].
  destruct (mapping_needs_modelClass unit search_all new_CrudRepository
              (ACondition {[ "id" := VNum 1 ]}) tt new_SearchQuery st_patch)
    as (_ & _ & Hrows & _).
  destruct (Hrows row1 [] Hsel) as [HfindOne _]. exact HfindOne.
Defined.

Lemma article_meta_run : article_meta = run_decorations article_decorations empty_store.
Proof. reflexivity. Qed.



(** For a model whose class extends no other, whatever decorators ran: when
    no row has the id, [update] runs the locate query and throws the
    [NotFound] error, and that is all it does. *)
Lemma update_not_found_root_class (mte : jsobj → props) (this : CrudRepository)
    (lodash_has : props → string → bool) (exponent_notation : Z → string)
    ds c id model (m : jsobj) txh st :
  obj_proto m = [c] →
  heap st !! model = Some m →
  ¬ stored (primaryKey this) id st →
  ∃ q, update mte (run_decorations ds empty_store) this lodash_has exponent_notation
         id model txh st
       = mkOutcome [EGetOne q] st (Throw (NotFound exponent_notation id)).
Proof.
  intros Hc Hm Hn.
  destruct (update_searchQuery_described mte (run_decorations ds empty_store) this
              lodash_has exponent_notation id m) as (q & Hq & _).
  { rewrite Hc. apply MetaTheory.described_root_classes. }
  exists q.
  by apply (update_not_found mte _ this lodash_has exponent_notation id model m txh st Hm Hn).
Qed.

(** C1, where it fails: [class Parent { @F a }], [class Child extends Parent
    { @F b }], an empty table and [update(1, new Parent())]. No row has id 1,
    yet what is thrown is not the [NotFound] error: [getMetaRelations(Parent)]
    lists ['b'], whose descriptor is on [Child.prototype] only, and the read
    of [options.appType] throws a [TypeError] while the Search Query is
    built, before the locate step is reached. *)
Theorem update_throws_before_locate :
  ¬ stored (primaryKey parent_repo) 1 st_parent ∧
  heap st_parent !! 0 = Some (mkObj Parent ∅) ∧
  update obj_props child_meta parent_repo has_dotted exponent_unused 1 0 None st_parent
  = mkOutcome [] st_parent
      (Throw (TypeError "Cannot read properties of undefined (reading 'appType')")).
Proof.
  split; [|split].
  - intros (row & Hrow & _). by apply elem_of_nil in Hrow.
  - reflexivity.
  - vm_compute. done.
Qed.




End RepositoryTheory.

(* ===================================================================== *)
(** * Further properties of the field metadata *)
(* ===================================================================== *)

Module MetaProperties.
Import Js Meta Orm Repository Spec Examples MetaTheory RepositoryTheory.

Lemma OrdinaryGetMetadata_app {V} (own : proto → option V) sub o v :
  OrdinaryGetMetadata own o = Some v →
  is_Some (OrdinaryGetMetadata own (sub ++ o)).
Proof.
  intros H. eapply OrdinaryGetMetadata_suffix; [by exists sub|]. by rewrite H.
Qed.

Lemma getMetadata_KEYS_decorate options internalOptions o p s :
  is_Some (meta_keys (ColumnMetaDecorator options internalOptions o p s) !! o).
Proof.
  unfold ColumnMetaDecorator. destruct (getMetadata_KEYS _ o); simpl;
    rewrite lookup_insert_eq; by eexists.
Qed.

Lemma getMetadata_KEYS_empty cls : getMetadata_KEYS empty_store cls = None.
Proof.
  unfold getMetadata_KEYS. simpl.
  induction cls as [|c cls IH]; simpl; by rewrite lookup_empty.
Qed.

(** X1: a class is a meta class as soon as one of its properties, or one
    of a class it extends, has been decorated; without any decoration no
    class is. *)
Theorem isMetaClass_decorated options internalOptions o p s sub cls :
  isMetaClass (ColumnMetaDecorator options internalOptions o p s) (sub ++ o) = true ∧
  isMetaClass empty_store cls = false.
Proof.
  split.
  - unfold isMetaClass. apply bool_decide_eq_true.
    destruct (getMetadata_KEYS_decorate options internalOptions o p s) as [r Hr].
    unfold getMetadata_KEYS. eapply OrdinaryGetMetadata_app.
    by apply OrdinaryGetMetadata_own.
  - unfold isMetaClass. rewrite getMetadata_KEYS_empty. apply bool_decide_eq_false.
    by intros [? ?].
Qed.

Lemma OrdinaryGetMetadata_ext {V} (own own' : proto → option V) o :
  (∀ o', o' `suffix_of` o → own o' = own' o') →
  OrdinaryGetMetadata own o = OrdinaryGetMetadata own' o.
Proof.
  induction o as [|c o IH]; intros H; simpl.
  - by rewrite H.
  - rewrite H by done. rewrite IH; [done|].
    intros o' Ho'. apply H. by apply suffix_cons_r.
Qed.

(** X2: after a field decorator ran on property [p] of [o], the class and
    every direct subclass without a descriptor of its own for [p] read the
    new descriptor; the descriptors of other properties, and of classes that
    do not extend [o], are as before. *)
Theorem getFieldOptions_decorate_scope options internalOptions o p s :
  let s' := ColumnMetaDecorator options internalOptions o p s in
  getFieldOptions s' o p = Some options ∧
  (∀ c, meta_field s !! (c :: o, p) = None → getFieldOptions s' (c :: o) p = Some options) ∧
  (∀ cls q, q ≠ p → getFieldOptions s' cls q = getFieldOptions s cls q) ∧
  (∀ cls, ¬ o `suffix_of` cls → getFieldOptions s' cls p = getFieldOptions s cls p).
Proof.
  intros s'. subst s'. split; [apply getFieldOptions_decorate|]. split; [|split].
  - intros c Hc. unfold getFieldOptions, getMetadata_FIELD. simpl.
    rewrite meta_field_decorate.
    rewrite lookup_insert_ne by (intros [= H]; by apply (f_equal length) in H; simpl in H; lia).
    rewrite Hc. destruct o; simpl; by rewrite lookup_insert_eq.
  - intros cls q Hq. unfold getFieldOptions, getMetadata_FIELD.
    apply OrdinaryGetMetadata_ext. intros o' _.
    rewrite meta_field_decorate. apply lookup_insert_ne. congruence.
  - intros cls Hs. unfold getFieldOptions, getMetadata_FIELD.
    apply OrdinaryGetMetadata_ext. intros o' Ho'.
    rewrite meta_field_decorate. apply lookup_insert_ne. intros [= ->]. done.
Qed.



Lemma OrdinaryGetMetadata_insert_other (keys : gmap proto nat) o0 r cls :
  ¬ o0 `suffix_of` cls →
  OrdinaryGetMetadata (λ o', <[o0 := r]> keys !! o') cls
  = OrdinaryGetMetadata (λ o', keys !! o') cls.
Proof.
  intros Hs. apply OrdinaryGetMetadata_ext. intros o' Ho'.
  apply lookup_insert_ne. by intros ->.
Qed.

Lemma not_suffix_cons {A} (c : A) (o : list A) : ¬ (c :: o) `suffix_of` o.
Proof. intros H%suffix_length. simpl in H. lia. Qed.

(** X5: the first decorator of a class that extends a decorated class
    adds the property to the list of the class it extends: afterwards both
    classes report the same list, ending with the new property. *)
Theorem subclass_decoration_shares_list options internalOptions c o p s r :
  wf_store s →
  meta_keys s !! (c :: o) = None →
  getMetadata_KEYS s o = Some r →
  let s' := ColumnMetaDecorator options internalOptions (c :: o) p s in
  getMetaFields s' (c :: o) = getMetaFields s o ++ [p] ∧
  getMetaFields s' o = getMetaFields s o ++ [p].
Proof.
  intros Hwf Hown Hr s'.
  assert (Hsub : getMetadata_KEYS s (c :: o) = Some r).
  { unfold getMetadata_KEYS in *. simpl. by rewrite Hown. }
  assert (Hfields : getMetaFields s (c :: o) = getMetaFields s o).
  { unfold getMetaFields. by rewrite Hsub, Hr. }
  split.
  - subst s'. by rewrite getMetaFields_decorate, Hfields.
  - subst s'. unfold getMetaFields at 1, ColumnMetaDecorator.
    change (getMetadata_KEYS _ (c :: o)) with (getMetadata_KEYS s (c :: o)).
    rewrite Hsub. unfold getMetadata_KEYS at 1. simpl.
    rewrite OrdinaryGetMetadata_insert_other by apply not_suffix_cons.
    fold (getMetadata_KEYS s o). rewrite Hr.
    unfold array_at at 1. simpl.
    rewrite list_lookup_insert_eq by by eapply wf_store_chain.
    unfold getMetaFields. by rewrite Hr.
Qed.

Lemma subclass_decoration_shares_list_witness :
  wf_store parent_meta ∧
  meta_keys parent_meta !! ("Child" :: Parent) = None ∧
  getMetadata_KEYS parent_meta Parent = Some 0 ∧
  getMetaFields (ColumnMetaDecorator (of_type "string") ∅ ("Child" :: Parent) "b" parent_meta)
    Parent
  = getMetaFields parent_meta Parent ++ ["b"].
Proof.
  assert (Hwf : wf_store parent_meta) by (apply wf_store_decorate, wf_store_empty).
  assert (Hown : meta_keys parent_meta !! ("Child" :: Parent) = None)
    by (vm_compute; reflexivity).
  assert (Hkeys : getMetadata_KEYS parent_meta Parent = Some 0)
    by (vm_compute; reflexivity).
  split; [exact Hwf|]. split; [exact Hown|]. split; [exact Hkeys|].
  destruct (subclass_decoration_shares_list (of_type "string") ∅ "Child" Parent "b"
              parent_meta 0 Hwf Hown Hkeys) as [_ Hparent].
  exact Hparent.
Defined.

(** The descriptor [BaseField] hands to [ColumnMetaDecorator]. *)
Lemma BaseField_decorate options internalOptions o p s :
  ∃ d, BaseField (Given (Some options)) (Given (Some internalOptions)) = Ok d ∧
       decorate d o p s
       = ColumnMetaDecorator
           (<["appType" := js_or (get internalOptions "appType") VNull]>
            (<["isArray" := js_or (get internalOptions "isArray") VNull]>
             (options ∪ <["label" := VNull]> (<["hint" := VNull]> (<["items" := VNull]> ∅)))))
           internalOptions o p s.
Proof.
  unfold BaseField. simpl. eexists. split; [reflexivity|].
  by destruct (truthy (get options "required")).
Qed.

(** X6: with both arguments given, [BaseField] registers the property:
    the descriptor has [appType] and [isArray] from [internalOptions] ([null]
    when falsy), whatever [options] says, every other option as given and
    [label], [hint], [items] defaulting to [null]; the decorator name is
    [internalOptions.decoratorName]; the property is appended to the list of
    the class. *)
Theorem BaseField_registers options internalOptions o p s :
  ∃ d, BaseField (Given (Some options)) (Given (Some internalOptions)) = Ok d ∧
  ∃ desc,
    getFieldOptions (decorate d o p s) o p = Some desc ∧
    get desc "appType" = js_or (get internalOptions "appType") VNull ∧
    get desc "isArray" = js_or (get internalOptions "isArray") VNull ∧
    (∀ k, k ≠ "appType" → k ≠ "isArray" → is_Some (options !! k) →
          desc !! k = options !! k) ∧
    (∀ k, k ∈ ["label"; "hint"; "items"] → options !! k = None →
          desc !! k = Some VNull) ∧
    meta_decorator (decorate d o p s) !! (o, p)
    = Some (get internalOptions "decoratorName") ∧
    relation_test (decorate d o p s) o p
    = Ok (is_relation_type (js_or (get internalOptions "appType") VNull)) ∧
    (wf_store s → getMetaFields (decorate d o p s) o = getMetaFields s o ++ [p]).
Proof.
  destruct (BaseField_decorate options internalOptions o p s) as (d & Hd & Hdec).
  exists d. split; [done|]. rewrite Hdec. eexists. split; [apply getFieldOptions_decorate|].
  split; [unfold get; by rewrite lookup_insert_eq|].
  split; [unfold get; by rewrite lookup_insert_ne, lookup_insert_eq|].
  split; [|split; [|split; [|split]]].
  - intros k Hk1 Hk2 [v Hv]. rewrite !lookup_insert_ne by done.
    rewrite Hv. by apply lookup_union_Some_l.
  - intros k Hk Hnone.
    rewrite !elem_of_cons in Hk. destruct Hk as [->|[->|[->|Hk]]];
      [| | |by apply elem_of_nil in Hk];
      rewrite !lookup_insert_ne by done; rewrite lookup_union_r by done;
      by simplify_map_eq.
  - by rewrite meta_decorator_decorate, lookup_insert_eq.
  - unfold relation_test. rewrite getFieldOptions_decorate.
    unfold get. by rewrite lookup_insert_eq.
  - apply getMetaFields_decorate.
Qed.


(** X8: a property registered by [BaseField] with a decorator name that
    the index exports is resolved by [getFieldDecorator] to that export, for
    the class and for a direct subclass without a decorator name of its own
    for the property. *)
Theorem getFieldDecorator_registered {D} (exponent_notation : Z → string) (index : string → option D)
    options internalOptions o p s name f d :
  get internalOptions "decoratorName" = VStr name →
  index name = Some f →
  BaseField (Given (Some options)) (Given (Some internalOptions)) = Ok d →
  getFieldDecorator exponent_notation index (decorate d o p s) o p = Ok f ∧
  ∀ c, meta_decorator s !! (c :: o, p) = None →
       getFieldDecorator exponent_notation index (decorate d o p s) (c :: o) p = Ok f.
Proof.
  intros Hname Hf Hd.
  destruct (BaseField_decorate options internalOptions o p s) as (d' & Hd' & Hdec).
  rewrite Hd in Hd'. injection Hd' as <-. rewrite Hdec.
  assert (Hown : meta_decorator (ColumnMetaDecorator
            (<["appType" := js_or (get internalOptions "appType") VNull]>
             (<["isArray" := js_or (get internalOptions "isArray") VNull]>
              (options ∪ <["label" := VNull]> (<["hint" := VNull]> (<["items" := VNull]> ∅)))))
            internalOptions o p s) !! (o, p) = Some (VStr name)).
  { by rewrite meta_decorator_decorate, lookup_insert_eq, Hname. }
  split.
  - unfold getFieldDecorator, getMetadata_DECORATOR.
    rewrite (OrdinaryGetMetadata_own _ _ _ Hown). simpl. by rewrite Hf.
  - intros c Hc. unfold getFieldDecorator, getMetadata_DECORATOR. simpl.
    rewrite meta_decorator_decorate in *.
    rewrite lookup_insert_ne by (intros [= H]; by apply (f_equal length) in H; simpl in H; lia).
    rewrite Hc. rewrite (OrdinaryGetMetadata_own _ _ _ Hown). simpl. by rewrite Hf.
Qed.

Lemma getFieldDecorator_registered_witness :
  get ({[ "decoratorName" := VStr "RelationField"; "appType" := VStr "relation" ]} : props)
      "decoratorName" = VStr "RelationField" ∧
  index_two "RelationField" = Some "RelationField" ∧
  ∃ d, BaseField (Given (Some ∅))
         (Given (Some {[ "decoratorName" := VStr "RelationField";
                         "appType" := VStr "relation" ]})) = Ok d ∧
       getFieldDecorator exponent_unused index_two (decorate d Article "tags" empty_store)
         Article "tags"
       = Ok "RelationField".
Proof.
  assert (Hname : get ({[ "decoratorName" := VStr "RelationField";
                          "appType" := VStr "relation" ]} : props) "decoratorName"
                  = VStr "RelationField") by (vm_compute; reflexivity).
  assert (Hidx : index_two "RelationField" = Some "RelationField") by (vm_compute; reflexivity).
  destruct (BaseField_decorate ∅ {[ "decoratorName" := VStr "RelationField";
                                    "appType" := VStr "relation" ]}
              Article "tags" empty_store) as (d & Hd & _).
  split; [exact Hname|]. split; [exact Hidx|].
  exists d. split; [exact Hd|].
  destruct (getFieldDecorator_registered exponent_unused index_two ∅
              {[ "decoratorName" := VStr "RelationField"; "appType" := VStr "relation" ]}
              Article "tags" empty_store "RelationField" "RelationField" d Hname Hidx Hd)
    as [Hown _].
  exact Hown.
Defined.

Lemma PrimaryKeyField_decorate options o p s :
  ∃ d desc, PrimaryKeyField (Given (Some options)) = Ok d ∧
            decorate d o p s = ColumnMetaDecorator desc ∅ o p s.
Proof.
  unfold PrimaryKeyField. cbn [or_default read rbind spread default].
  set (options' := if truthy (get options "label") then options
                   else <["label" := VStr "ИД"]> options).
  destruct (BaseField_decorate
              (<["appType" := VStr "primaryKey"]>
               (<["decoratorName" := VStr "PrimaryKeyField"]> options')) ∅ o p s)
    as (d & Hd & Hdec).
  change (BaseField _ Omitted) with
    (BaseField (Given (Some (<["appType" := VStr "primaryKey"]>
               (<["decoratorName" := VStr "PrimaryKeyField"]> options')))) (Given (Some ∅))).
  rewrite Hd. cbn [rbind]. eexists _, _. split; [reflexivity|].
  etransitivity; [|exact Hdec]. done.
Qed.

(** X9: when the index has no export named ['undefined'],
    [getFieldDecorator] throws ['Not found Field decorator undefined,
    property: p'] for a property without decorator name, and also for a
    property decorated by [PrimaryKeyField], which hands its [decoratorName]
    to [BaseField] inside [options], so that none is stored. *)
Theorem getFieldDecorator_without_name {D} (exponent_notation : Z → string) (index : string → option D) s o p options d :
  index "undefined" = None →
  (getMetadata_DECORATOR s o p = None →
   getFieldDecorator exponent_notation index s o p
   = Throw (Error ("Not found Field decorator undefined, property: " +:+ p))) ∧
  (PrimaryKeyField (Given (Some options)) = Ok d →
   getFieldDecorator exponent_notation index (decorate d o p s) o p
   = Throw (Error ("Not found Field decorator undefined, property: " +:+ p))).
Proof.
  intros Hidx. split.
  - intros Hnone. unfold getFieldDecorator. rewrite Hnone. simpl. by rewrite Hidx.
  - intros Hd.
    destruct (PrimaryKeyField_decorate options o p s) as (d' & desc & Hd' & Hdec).
    rewrite Hd in Hd'. injection Hd' as <-. rewrite Hdec.
    unfold getFieldDecorator, getMetadata_DECORATOR.
    rewrite (OrdinaryGetMetadata_own _ _ VUndefined).
    + simpl. by rewrite Hidx.
    + by rewrite meta_decorator_decorate, lookup_insert_eq.
Qed.

Lemma getFieldDecorator_without_name_witness :
  index_two "undefined" = None ∧
  getFieldDecorator exponent_unused index_two article_meta Article "body"
  = Throw (Error "Not found Field decorator undefined, property: body").
Proof.
  assert (Hidx : index_two "undefined" = None) by (vm_compute; reflexivity).
  assert (Hnone : getMetadata_DECORATOR article_meta Article "body" = None)
    by (vm_compute; reflexivity).
  split; [exact Hidx|].
  destruct (getFieldDecorator_without_name exponent_unused index_two article_meta Article
              "body" ∅ DIsNotEmpty Hidx) as [H _].
  exact (H Hnone).
Defined.

End MetaProperties.

(* ===================================================================== *)
(** * Further properties of the repositories *)
(* ===================================================================== *)

Module RepositoryProperties.
Import Js Meta Orm Repository Spec Examples RepositoryTheory.

Lemma call_beforeSave_create model m (this : CrudRepository) st :
  heap st !! model = Some m →
  call_beforeSave this None model st
  = prepend [EBeforeSave None m] (beforeSave (hooks this) None model st).
Proof.
  intros Hm. unfold call_beforeSave, deref_opt.
  rewrite (bind_Ok _ _ _ [] st None) by done. rewrite prepend_nil.
  rewrite (bind_Ok _ _ _ _ _ _ (deref_Some _ _ _ Hm)), prepend_nil.
  by erewrite (bind_Ok (emit _)) by done.
Qed.

Lemma call_afterSave_create model m (this : CrudRepository) st :
  heap st !! model = Some m →
  call_afterSave this None model st
  = prepend [EAfterSave None m] (afterSave (hooks this) None model st).
Proof.
  intros Hm. unfold call_afterSave, deref_opt.
  rewrite (bind_Ok _ _ _ [] st None) by done. rewrite prepend_nil.
  rewrite (bind_Ok _ _ _ _ _ _ (deref_Some _ _ _ Hm)), prepend_nil.
  by erewrite (bind_Ok (emit _)) by done.
Qed.

Section repository_with_hooks.
Variable SearchInputDto : Type.
Variable SearchHelper_search : SearchInputDto → SearchQuery → M (SearchResultDto props).
Variable mte : jsobj → props.
Variable meta : MetaStore.
Variable this : CrudRepository.
Variable lodash_has : props → string → bool.
Variable exponent_notation : Z → string.

(** The callback of [create] up to the call of [afterSave], when
    [beforeSave] returns without effect. *)
Lemma saveHandler_create_saved model m mgr st st1 saved :
  heap st !! model = Some m →
  beforeSave (hooks this) None model st = mkOutcome [] st (Ok tt) →
  manager_save mgr (mte m) st = mkOutcome [ESave mgr (mte m)] st1 (Ok saved) →
  heap st1 = heap st →
  let m' := mkObj (obj_proto m) (saved ∪ obj_props m) in
  let st2 := set_heap (<[model := m']> (heap st1)) st1 in
  saveHandler mte this None model mgr st
  = prepend [EBeforeSave None m; ESave mgr (mte m); EAfterSave None m']
      ((afterSave (hooks this) None model ≫= λ _, ret model) st2).
Proof.
  intros Hm Hb Hsave Hheap m' st2. unfold saveHandler.
  rewrite (bind_Ok (call_beforeSave _ _ _) _ st [EBeforeSave None m] st tt).
  2:{ by rewrite (call_beforeSave_create _ _ _ _ Hm), Hb. }
  rewrite (bind_Ok (modelToEntity _ _) _ st [] st (mte m)).
  2:{ unfold modelToEntity. by rewrite (bind_Ok _ _ _ _ _ _ (deref_Some _ _ _ Hm)). }
  rewrite (bind_Ok _ _ _ _ _ _ Hsave).
  assert (Hm1 : heap st1 !! model = Some m) by by rewrite Hheap.
  rewrite (bind_Ok _ _ _ _ _ _ (applyChangesToModel_Some _ _ _ _ Hm1)).
  fold m' st2.
  assert (Hm2 : heap st2 !! model = Some m').
  { simpl. apply list_lookup_insert_eq. by apply lookup_lt_Some in Hm1. }
  unfold mbind at 1, M_bind, bind.
  rewrite (call_afterSave_create _ _ _ _ Hm2).
  unfold mbind, M_bind, bind, prepend. simpl.
  destruct (o_res (afterSave (hooks this) None model st2)); simpl;
    by rewrite ?app_nil_r, <- ?app_assoc.
Qed.

(** X10: with the default hooks [create] resolves to the model it was
    given, updated in place with what [manager.save] returned, and creates no
    other object; the hooks run around the save, and with a wrapper that runs
    the callback the same happens inside one transaction on the
    transaction's manager. *)
Theorem create_in_place model m st :
  hooks this = default_hooks →
  heap st !! model = Some m →
  ∃ st1 saved,
    manager_save DefaultManager (mte m) st
    = mkOutcome [ESave DefaultManager (mte m)] st1 (Ok saved) ∧
    let m' := mkObj (obj_proto m) (saved ∪ obj_props m) in
    let st2 := set_heap (<[model := m']> (heap st)) st1 in
    heap st2 !! model = Some m' ∧
    length (heap st2) = length (heap st) ∧
    create mte this model None st
    = mkOutcome [EBeforeSave None m; ESave DefaultManager (mte m); EAfterSave None m']
                st2 (Ok model) ∧
    create mte this model (Some run_callback) st
    = mkOutcome [ETxBegin; EBeforeSave None m; ESave TxManager (mte m);
                 EAfterSave None m'; ETxCommit]
                st2 (Ok model).
Proof.
  intros Hh Hm.
  destruct (manager_save_run (mte m) st) as (st1 & saved & Hsave & Hheap).
  exists st1, saved. split; [apply Hsave|]. intros m' st2.
  assert (Hrun : ∀ mgr, saveHandler mte this None model mgr st
            = mkOutcome [EBeforeSave None m; ESave mgr (mte m); EAfterSave None m']
                st2 (Ok model)).
  { intros mgr.
    rewrite (saveHandler_create_saved model m mgr st st1 saved Hm); [|by rewrite Hh|done|done].
    rewrite Hh, Hheap. done. }
  split; [|split; [|split]].
  - simpl. apply list_lookup_insert_eq. by apply lookup_lt_Some in Hm.
  - simpl. by rewrite length_insert.
  - unfold create, run_saveHandler.
    erewrite (bind_Ok (_ ≫= _)).
    2:{ by rewrite (bind_Ok _ _ _ _ _ _ (Hrun DefaultManager)). }
    done.
  - unfold create, run_saveHandler.
    erewrite (bind_Ok (transaction _)).
    2:{ unfold transaction, run_callback.
        by rewrite (bind_Ok _ _ _ _ _ _ (Hrun TxManager)). }
    done.
Qed.

(** X11: when [beforeSave] throws, [create] throws the same error and
    nothing is saved; when [afterSave] throws, [create] throws the same
    error, without a transaction the row remains saved, with one it is rolled
    back. *)
Theorem create_hook_failures model m st :
  heap st !! model = Some m →
  (∀ t st' e,
     beforeSave (hooks this) None model st = mkOutcome t st' (Throw e) →
     create mte this model None st = mkOutcome (EBeforeSave None m :: t) st' (Throw e)) ∧
  (∀ st1 saved e,
     beforeSave (hooks this) None model st = mkOutcome [] st (Ok tt) →
     manager_save DefaultManager (mte m) st
     = mkOutcome [ESave DefaultManager (mte m)] st1 (Ok saved) →
     (∀ st2, afterSave (hooks this) None model st2 = mkOutcome [] st2 (Throw e)) →
     let o := create mte this model None st in
     let o' := create mte this model (Some run_callback) st in
     o_res o = Throw e ∧ rows (o_state o) = rows st1 ∧
     o_res o' = Throw e ∧ rows (o_state o') = rows st ∧
     last (o_trace o') = Some ETxRollback).
Proof.
  intros Hm. split.
  - intros t st' e Hb. unfold create, run_saveHandler, saveHandler.
    assert (Hcall : call_beforeSave this None model st
                    = mkOutcome (EBeforeSave None m :: t) st' (Throw e)).
    { by rewrite (call_beforeSave_create _ _ _ _ Hm), Hb. }
    erewrite (bind_Throw (_ ≫= _)); [done|].
    erewrite (bind_Throw (_ ≫= _)); [done|].
    by erewrite (bind_Throw (call_beforeSave _ _ _)).
  - intros st1 saved e Hb Hsave Ha o o'.
    destruct (manager_save_run (mte m) st) as (st1' & saved' & Hsave' & Hheap).
    rewrite Hsave' in Hsave. injection Hsave as -> ->.
    assert (Hrun : ∀ mgr, saveHandler mte this None model mgr st
              = mkOutcome [EBeforeSave None m; ESave mgr (mte m);
                           EAfterSave None (mkObj (obj_proto m) (saved ∪ obj_props m))]
                  (set_heap (<[model := mkObj (obj_proto m) (saved ∪ obj_props m)]> (heap st1)) st1)
                  (Throw e)).
    { intros mgr.
      rewrite (saveHandler_create_saved model m mgr st st1 saved Hm Hb (Hsave' mgr) Hheap).
      by rewrite (bind_Throw _ _ _ _ _ _ (Ha _)). }
    subst o o'. unfold create, run_saveHandler.
    erewrite (bind_Throw (_ ≫= _)).
    2:{ by rewrite (bind_Throw _ _ _ _ _ _ (Hrun DefaultManager)). }
    erewrite (bind_Throw (transaction _)).
    2:{ unfold transaction, run_callback.
        by rewrite (bind_Throw _ _ _ _ _ _ (Hrun TxManager)). }
    done.
Qed.

(** X12: on a repository whose [modelClass] is unset, [update] of a
    stored id throws the [modelClass] error right after the locate query: no
    hook, no save, state unchanged. *)
Theorem update_misconfigured id model m q row rs txh st :
  heap st !! model = Some m →
  update_searchQuery meta this lodash_has id m = Ok q →
  select q st = row :: rs →
  modelClass this = None →
  update mte meta this lodash_has exponent_notation id model txh st
  = mkOutcome [EGetOne q] st (Throw (Misconfigured this)).
Proof.
  intros Hm Hq Hsel Hc. unfold update.
  rewrite (bind_Ok _ _ _ _ _ _ (deref_Some _ _ _ Hm)), prepend_nil.
  rewrite Hq. rewrite (bind_Ok _ _ _ [] st q) by done. rewrite prepend_nil.
  by rewrite (bind_Throw _ _ _ _ _ _ (findOne_unset _ _ _ _ _ Hsel Hc)).
Qed.

(** X13: with the default hooks and no transaction handler [update]
    resolves to a new object, the next state merged with what [manager.save]
    returned; the incoming model is left as it was, and the previous state is
    kept unchanged beside it. *)
Theorem update_leaves_inputs id model m q row rs cls st :
  hooks this = default_hooks →
  heap st !! model = Some m →
  update_searchQuery meta this lodash_has id m = Ok q →
  select q st = row :: rs →
  modelClass this = Some cls →
  let prev := mkObj cls row in
  let next := mkObj cls (obj_props m ∪ row) in
  let lp := length (heap st) in
  let ln := S lp in
  let o := update mte meta this lodash_has exponent_notation id model None st in
  ∃ st1 saved,
    manager_save DefaultManager (mte next) (set_heap (heap st ++ [prev; next]) st)
    = mkOutcome [ESave DefaultManager (mte next)] st1 (Ok saved) ∧
    o_res o = Ok ln ∧
    heap (o_state o) = heap st ++ [prev; mkObj cls (saved ∪ obj_props next)] ∧
    heap (o_state o) !! model = Some m ∧
    rows (o_state o) = rows st1.
Proof.
  intros Hh Hm Hq Hsel Hc prev next lp ln o.
  destruct (located_heap st prev next) as [Hp Hn].
  destruct (manager_save_run (mte next) (set_heap (heap st ++ [prev; next]) st))
    as (st1 & saved & Hsave & Hheap).
  exists st1, saved. split; [apply Hsave|].
  assert (Hrun : saveHandler mte this (Some lp) ln DefaultManager
                   (set_heap (heap st ++ [prev; next]) st)
                 = mkOutcome [EBeforeSave (Some prev) next; ESave DefaultManager (mte next);
                              EAfterSave (Some prev) (mkObj cls (saved ∪ obj_props next))]
                     (set_heap (<[ln := mkObj cls (saved ∪ obj_props next)]> (heap st1)) st1)
                     (Ok ln)).
  { unfold saveHandler.
    rewrite (bind_Ok (call_beforeSave _ _ _) _ _ [EBeforeSave (Some prev) next]
               (set_heap (heap st ++ [prev; next]) st) tt).
    2:{ by rewrite (call_beforeSave_run _ _ _ _ _ _ Hp Hn), Hh. }
    erewrite (bind_Ok (modelToEntity _ _)).
    2:{ unfold modelToEntity. by rewrite (bind_Ok _ _ _ _ _ _ (deref_Some _ _ _ Hn)). }
    rewrite (bind_Ok _ _ _ _ _ _ (Hsave DefaultManager)).
    assert (Hn1 : heap st1 !! ln = Some next) by by rewrite Hheap.
    rewrite (bind_Ok _ _ _ _ _ _ (applyChangesToModel_Some _ _ _ _ Hn1)).
    erewrite (bind_Ok (call_afterSave _ _ _)).
    2:{ rewrite (call_afterSave_run _ lp ln prev (mkObj cls (saved ∪ obj_props next))), Hh.
        - done.
        - simpl. rewrite list_lookup_insert_ne by (subst ln lp; lia). by rewrite Hheap.
        - simpl. apply list_lookup_insert_eq. by apply lookup_lt_Some in Hn1. }
    done. }
  subst o.
  rewrite (update_located mte meta this lodash_has exponent_notation id model m q row rs cls None st Hm Hq Hsel Hc).
  fold prev next lp ln. unfold run_saveHandler.
  erewrite (bind_Ok (_ ≫= _)).
  2:{ by rewrite (bind_Ok _ _ _ _ _ _ Hrun). }
  cbn [prepend o_res o_state o_trace ret mret M_ret heap set_heap].
  rewrite Hheap. cbn [heap set_heap].
  assert (Hfinal : <[ln := mkObj cls (saved ∪ obj_props next)]> (heap st ++ [prev; next])
                   = heap st ++ [prev; mkObj cls (saved ∪ obj_props next)]).
  { subst ln lp. replace (S (length (heap st))) with (length (heap st) + 1) by lia.
    by rewrite insert_app_r. }
  rewrite Hfinal. split; [done|]. split; [done|]. split; [|done].
  by apply lookup_app_l_Some.
Qed.

(** X14: when [beforeSave] throws, [update] throws the same error after
    the locate query and the hook, and nothing is saved; with a wrapper that
    runs the callback the transaction is rolled back. *)
Theorem update_beforeSave_veto id model m q row rs cls t st' e st :
  heap st !! model = Some m →
  update_searchQuery meta this lodash_has id m = Ok q →
  select q st = row :: rs →
  modelClass this = Some cls →
  let prev := mkObj cls row in
  let next := mkObj cls (obj_props m ∪ row) in
  beforeSave (hooks this) (Some (length (heap st))) (S (length (heap st)))
    (set_heap (heap st ++ [prev; next]) st)
  = mkOutcome t st' (Throw e) →
  update mte meta this lodash_has exponent_notation id model None st
  = mkOutcome (EGetOne q :: EBeforeSave (Some prev) next :: t) st' (Throw e) ∧
  update mte meta this lodash_has exponent_notation id model (Some run_callback) st
  = mkOutcome (EGetOne q :: ETxBegin :: EBeforeSave (Some prev) next :: t ++ [ETxRollback])
              (set_rows (rows st) st') (Throw e).
Proof.
  intros Hm Hq Hsel Hc prev next Hb.
  destruct (located_heap st prev next) as [Hp Hn].
  assert (Hrun : ∀ mgr, saveHandler mte this (Some (length (heap st)))
                          (S (length (heap st))) mgr
                          (set_heap (heap st ++ [prev; next]) st)
                 = mkOutcome (EBeforeSave (Some prev) next :: t) st' (Throw e)).
  { intros mgr. unfold saveHandler.
    erewrite (bind_Throw (call_beforeSave _ _ _)); [done|].
    by rewrite (call_beforeSave_run _ _ _ _ _ _ Hp Hn), Hb. }
  split.
  - rewrite (update_located mte meta this lodash_has exponent_notation id model m q row rs cls None st Hm Hq Hsel Hc).
    unfold run_saveHandler.
    erewrite (bind_Throw (_ ≫= _)).
    2:{ by rewrite (bind_Throw _ _ _ _ _ _ (Hrun DefaultManager)). }
    done.
  - rewrite (update_located mte meta this lodash_has exponent_notation id model m q row rs cls (Some run_callback) st
               Hm Hq Hsel Hc).
    unfold run_saveHandler.
    erewrite (bind_Throw (transaction _)).
    2:{ unfold transaction, run_callback.
        by rewrite (bind_Throw _ _ _ _ _ _ (Hrun TxManager)). }
    done.
Qed.

(** X15: whether anything happens inside the transaction is up to the
    wrapper: with one that returns without running the callback, [update],
    [create] and [remove] open and commit an empty transaction and report
    success, no hook having run and nothing having been saved or removed. *)
Theorem wrapper_decides (h : TransactionHandler) id model m q row rs cls st :
  (∀ A (callback : M A) st0, h A callback st0 = mkOutcome [] st0 (Ok tt)) →
  heap st !! model = Some m →
  update_searchQuery meta this lodash_has id m = Ok q →
  select q st = row :: rs →
  modelClass this = Some cls →
  update mte meta this lodash_has exponent_notation id model (Some h) st
  = mkOutcome [EGetOne q; ETxBegin; ETxCommit]
      (set_heap (heap st ++ [mkObj cls row; mkObj cls (obj_props m ∪ row)]) st)
      (Ok (S (length (heap st)))) ∧
  create mte this model (Some h) st = mkOutcome [ETxBegin; ETxCommit] st (Ok model) ∧
  remove this id (Some h) st = mkOutcome [ETxBegin; ETxCommit] st (Ok tt).
Proof.
  intros Hh Hm Hq Hsel Hc. split; [|split].
  - rewrite (update_located mte meta this lodash_has exponent_notation id model m q row rs cls (Some h) st Hm Hq Hsel Hc).
    unfold run_saveHandler.
    erewrite (bind_Ok (transaction _)).
    2:{ unfold transaction. by rewrite Hh. }
    done.
  - unfold create, run_saveHandler.
    erewrite (bind_Ok (transaction _)).
    2:{ unfold transaction. by rewrite Hh. }
    done.
  - unfold remove, transaction. by rewrite Hh.
Qed.

(** X16: when [beforeDelete] throws, [remove] with a wrapper that runs
    the callback throws the same error, [manager.remove] is not called and
    the transaction is rolled back. *)
Theorem remove_beforeDelete_veto id t st' e st :
  beforeDelete (hooks this) id st = mkOutcome t st' (Throw e) →
  remove this id (Some run_callback) st
  = mkOutcome (ETxBegin :: EBeforeDelete id :: t ++ [ETxRollback])
              (set_rows (rows st) st') (Throw e).
Proof.
  intros Hb. unfold remove, transaction, run_callback, call_beforeDelete.
  erewrite (bind_Throw (_ ≫= _)).
  2:{ erewrite (bind_Throw (_ ≫= _)); [done|].
      erewrite (bind_Ok (emit _)) by done. by rewrite Hb. }
  done.
Qed.

Lemma same_key_stored pk id (row : props) :
  same_key pk (VNum id) row = true ↔ row !! pk = Some (VNum id).
Proof.
  unfold same_key, get. rewrite bool_decide_eq_true.
  destruct (row !! pk); simpl; split; congruence.
Qed.

(** X17: in the version with [removeInternal], [remove] hands
    [manager.remove] an entity [{id}]; on a table whose key column is [id] it
    succeeds, removes exactly the rows with that id, and a following
    [findOne] by id returns [null]. *)
Theorem remove_then_lookup id txh st :
  pk_col st = "id" →
  primaryKey this = "id" →
  txh = None ∨ txh = Some run_callback →
  let o := SaveRepository.remove id txh st in
  o_res o = Ok tt ∧
  o_trace o = match txh with
              | None => [ERemove DefaultManager (VObj {[ "id" := VNum id ]})]
              | Some _ => [ETxBegin; ERemove TxManager (VObj {[ "id" := VNum id ]}); ETxCommit]
              end ∧
  ¬ stored (primaryKey this) id (o_state o) ∧
  (∀ row, row ∈ rows (o_state o) ↔ row ∈ rows st ∧ row !! "id" ≠ Some (VNum id)) ∧
  findOne this (ACondition {[ primaryKey this := VNum id ]}) (o_state o)
  = mkOutcome [EGetOne (mkQuery {[ primaryKey this := VNum id ]} [])] (o_state o) (Ok None).
Proof.
  intros Hpk Hthis Htxh o.
  assert (Hst : o_state o = set_rows (List.filter (λ row, negb (same_key "id" (VNum id) row))
                                  (rows st)) st ∧
                o_res o = Ok tt ∧
                o_trace o = match txh with
              | None => [ERemove DefaultManager (VObj {[ "id" := VNum id ]})]
              | Some _ => [ETxBegin; ERemove TxManager (VObj {[ "id" := VNum id ]}); ETxCommit]
              end).
  { subst o. destruct Htxh as [->| ->].
    - unfold SaveRepository.remove, SaveRepository.removeInternal, manager_remove,
        mbind, M_bind, bind, emit, gets, modify. simpl.
      by rewrite Hpk.
    - unfold SaveRepository.remove, SaveRepository.removeInternal, transaction, run_callback.
      unfold manager_remove, mbind, M_bind, bind, emit, gets, modify. simpl.
      by rewrite Hpk. }
  destruct Hst as (Hst & Hres & Htr).
  assert (Hrows : ∀ row, row ∈ rows (o_state o) ↔
            row ∈ rows st ∧ row !! "id" ≠ Some (VNum id)).
  { intros row. rewrite Hst. simpl. rewrite elem_of_List_filter.
    rewrite negb_true_iff, <- not_true_iff_false, same_key_stored. done. }
  assert (Hnot : ¬ stored (primaryKey this) id (o_state o)).
  { rewrite Hthis. intros (row & Hrow & Hk). apply Hrows in Hrow as [_ Hne]. done. }
  split; [done|]. split; [done|]. split; [done|]. split; [done|].
  unfold findOne. cbn [createQueryBuilder relations new_SearchQuery].
  rewrite (bind_Ok _ _ _ _ _ _ (getOne_run _ _)).
  by rewrite (select_not_stored _ _ _ _ Hnot).
Qed.

(** X18: [findMany] returns the empty list, and [search] the helper's
    result, without consulting [modelClass] when there is no row to map; an
    error of the search helper is passed on. *)
Theorem reads_without_rows (q : conditionOrQuery) (dto : SearchInputDto)
    (sq : SearchQuery) (st : state) :
  (select (createQueryBuilder q) st = [] →
   findMany this q st = mkOutcome [EGetMany (createQueryBuilder q)] st (Ok [])) ∧
  (∀ t st' n,
     SearchHelper_search dto sq st = mkOutcome t st' (Ok (mkResult [] n)) →
     search SearchInputDto SearchHelper_search this dto sq st
     = mkOutcome t st' (Ok (mkResult [] n))) ∧
  (∀ t st' e,
     SearchHelper_search dto sq st = mkOutcome t st' (Throw e) →
     search SearchInputDto SearchHelper_search this dto sq st
     = mkOutcome t st' (Throw e)).
Proof.
  split; [|split].
  - intros Hsel. unfold findMany.
    rewrite (bind_Ok _ _ _ _ _ _ (getMany_run _ _)). by rewrite Hsel.
  - intros t st' n Hs. unfold search. rewrite (bind_Ok _ _ _ _ _ _ Hs).
    cbn. unfold prepend. simpl. by rewrite !app_nil_r.
  - intros t st' e Hs. unfold search. by rewrite (bind_Throw _ _ _ _ _ _ Hs).
Qed.

(** X21: with the default hooks, a model created without primary key is
    stored under the generated id, and [findOne] by that id returns a new
    object of [modelClass] holding the saved row. *)
Theorem create_then_findOne model m cls st :
  hooks this = default_hooks →
  heap st !! model = Some m →
  modelClass this = Some cls →
  pk_col st = primaryKey this →
  get (mte m) (primaryKey this) = VUndefined →
  ¬ stored (primaryKey this) (next_id st) st →
  let id := next_id st in
  let saved := <[primaryKey this := VNum id]> (mte m) in
  let o := create mte this model None st in
  o_res o = Ok model ∧
  heap (o_state o) !! model = Some (mkObj (obj_proto m) (saved ∪ obj_props m)) ∧
  stored (primaryKey this) id (o_state o) ∧
  let o2 := findOne this (ACondition {[ primaryKey this := VNum id ]}) (o_state o) in
  o_res o2 = Ok (Some (length (heap st))) ∧
  heap (o_state o2) !! length (heap st) = Some (mkObj cls saved).
Proof.
  intros Hh Hm Hc Hpk Hkey Hfresh id saved o.
  assert (Hsave : manager_save DefaultManager (mte m) st
                  = mkOutcome [ESave DefaultManager (mte m)]
                      (mkState (heap st) (pk_col st) (rows st ++ [saved]) (id + 1)%Z)
                      (Ok saved)).
  { unfold manager_save, mbind, M_bind, bind, emit, gets, modify, ret, mret, M_ret, prepend.
    simpl. rewrite Hpk, Hkey. simpl. by rewrite Hpk. }
  assert (Ho : o = mkOutcome [EBeforeSave None m; ESave DefaultManager (mte m);
                              EAfterSave None (mkObj (obj_proto m) (saved ∪ obj_props m))]
                 (mkState (<[model := mkObj (obj_proto m) (saved ∪ obj_props m)]> (heap st))
                          (pk_col st) (rows st ++ [saved]) (id + 1)%Z)
                 (Ok model)).
  { subst o. unfold create, run_saveHandler.
    erewrite (bind_Ok (_ ≫= _)).
    2:{ erewrite (bind_Ok (saveHandler _ _ _ _ _)); [done|].
        rewrite (saveHandler_create_saved model m DefaultManager st
                   (mkState (heap st) (pk_col st) (rows st ++ [saved]) (id + 1)%Z)
                   saved Hm);
          [|by rewrite Hh|exact Hsave|done].
        rewrite Hh. done. }
    done. }
  rewrite Ho. cbn [o_res o_state heap rows].
  assert (Hsel : select (mkQuery {[ primaryKey this := VNum id ]} [])
                   (mkState (<[model := mkObj (obj_proto m) (saved ∪ obj_props m)]> (heap st))
                            (pk_col st) (rows st ++ [saved]) (id + 1)%Z)
                 = [saved]).
  { unfold select. cbn [condition rows]. rewrite List.filter_app.
    pose proof (select_not_stored (primaryKey this) id [] st Hfresh) as Hnil.
    unfold select in Hnil. cbn [condition] in Hnil. rewrite Hnil. simpl.
    replace (matches {[ primaryKey this := VNum id ]} saved) with true; [done|].
    symmetry. apply matches_pk. subst saved. by rewrite lookup_insert_eq. }
  split; [done|]. split.
  { apply list_lookup_insert_eq. by apply lookup_lt_Some in Hm. }
  split.
  { exists saved. split; [|subst saved; by rewrite lookup_insert_eq].
    cbn [rows]. apply elem_of_app. right. by left. }
  cbv zeta.
  rewrite (findOne_set this (mkQuery {[ primaryKey this := VNum id ]} []) saved [] cls _ Hsel Hc
           : findOne this (ACondition {[ primaryKey this := VNum id ]}) _ = _).
  cbn [o_res o_state heap set_heap]. rewrite length_insert. split; [done|].
  by rewrite lookup_app_r, length_insert, Nat.sub_diag by (rewrite length_insert; lia).
Qed.

End repository_with_hooks.

Section save_repository.
Variable mte : jsobj → props.
Variable this : CrudRepository.

Lemma assign_Some model m k v st :
  heap st !! model = Some m →
  assign model k v st
  = mkOutcome [] (set_heap (<[model := mkObj (obj_proto m) (<[k := v]> (obj_props m))]>
                              (heap st)) st) (Ok tt).
Proof.
  intros Hm. unfold assign.
  by rewrite (bind_Ok _ _ _ _ _ _ (deref_Some _ _ _ Hm)), prepend_nil.
Qed.

(** [saveInternal] on a model: what reaches [manager.save] and what is
    merged back. *)
Lemma saveInternal_run mgr model m st :
  heap st !! model = Some m →
  ∃ st1 saved,
    (∀ mgr', manager_save mgr' (mte m) st = mkOutcome [ESave mgr' (mte m)] st1 (Ok saved)) ∧
    heap st1 = heap st ∧
    SaveRepository.saveInternal mte mgr model st
    = mkOutcome [ESave mgr (mte m)]
        (set_heap (<[model := mkObj (obj_proto m) (saved ∪ obj_props m)]> (heap st)) st1)
        (Ok tt).
Proof.
  intros Hm.
  destruct (manager_save_run (mte m) st) as (st1 & saved & Hsave & Hheap).
  exists st1, saved. split; [done|]. split; [done|].
  unfold SaveRepository.saveInternal.
  erewrite (bind_Ok (modelToEntity _ _)).
  2:{ unfold modelToEntity. by rewrite (bind_Ok _ _ _ _ _ _ (deref_Some _ _ _ Hm)). }
  rewrite (bind_Ok _ _ _ _ _ _ (Hsave mgr)).
  assert (Hm1 : heap st1 !! model = Some m) by by rewrite Hheap.
  rewrite (applyChangesToModel_Some _ _ _ _ Hm1). by rewrite Hheap.
Qed.

(** X19: in the version with [save], [update(id, model)] does not look
    the id up: it sets the primary key on the incoming model itself and saves
    it, in one transaction when a wrapper is given, and resolves to that same
    model. *)
Theorem save_update_upserts id model m st :
  heap st !! model = Some m →
  let m' := mkObj (obj_proto m) (<[primaryKey this := VNum id]> (obj_props m)) in
  let o := SaveRepository.update mte this id model None st in
  let o' := SaveRepository.update mte this id model (Some run_callback) st in
  o_trace o = [ESave DefaultManager (mte m')] ∧
  o_res o = Ok model ∧
  o_trace o' = [ETxBegin; ESave TxManager (mte m'); ETxCommit] ∧
  o_res o' = Ok model ∧
  within_transaction false (o_trace o') = true ∧
  ∃ saved, heap (o_state o) !! model = Some (mkObj (obj_proto m) (saved ∪ obj_props m')) ∧
           heap (o_state o') = heap (o_state o).
Proof.
  intros Hm m' o o'.
  set (st0 := set_heap (<[model := m']> (heap st)) st).
  assert (Hm0 : heap st0 !! model = Some m').
  { simpl. apply list_lookup_insert_eq. by apply lookup_lt_Some in Hm. }
  destruct (saveInternal_run DefaultManager model m' st0 Hm0)
    as (st1 & saved & Hsave & Hheap & Hrun).
  destruct (saveInternal_run TxManager model m' st0 Hm0)
    as (st1' & saved' & Hsave' & _ & Hrun').
  pose proof (Hsave DefaultManager) as E. rewrite (Hsave' DefaultManager) in E.
  injection E as -> ->.
  assert (Ho : o = mkOutcome [ESave DefaultManager (mte m')]
                 (set_heap (<[model := mkObj (obj_proto m') (saved ∪ obj_props m')]> (heap st0)) st1)
                 (Ok model)).
  { subst o. unfold SaveRepository.update.
    rewrite (bind_Ok _ _ _ _ _ _ (assign_Some _ _ _ _ _ Hm)), prepend_nil.
    fold m' st0. unfold SaveRepository.save.
    by rewrite (bind_Ok _ _ _ _ _ _ Hrun). }
  assert (Ho' : o' = mkOutcome [ETxBegin; ESave TxManager (mte m'); ETxCommit]
                 (set_heap (<[model := mkObj (obj_proto m') (saved ∪ obj_props m')]> (heap st0)) st1)
                 (Ok model)).
  { subst o'. unfold SaveRepository.update.
    rewrite (bind_Ok _ _ _ _ _ _ (assign_Some _ _ _ _ _ Hm)), prepend_nil.
    fold m' st0. unfold SaveRepository.save.
    erewrite (bind_Ok (transaction _)).
    2:{ unfold transaction, run_callback. by rewrite (bind_Ok _ _ _ _ _ _ Hrun'). }
    done. }
  rewrite Ho, Ho'. repeat split; try done.
  exists saved. split; [|done]. simpl.
  rewrite list_lookup_insert_eq; [done|].
  rewrite length_insert. by apply lookup_lt_Some in Hm.
Qed.

(** X20: in the version with [save], [create] clears the primary key of
    the model, so the table generates one: a row is appended under the next
    id, and the model, updated in place, carries that id. *)
Theorem save_create_generates_key model m st :
  heap st !! model = Some m →
  let m' := mkObj (obj_proto m) (<[primaryKey this := VUndefined]> (obj_props m)) in
  get (mte m') (pk_col st) = VUndefined →
  let o := SaveRepository.create mte this model None st in
  let saved := <[pk_col st := VNum (next_id st)]> (mte m') in
  o_trace o = [ESave DefaultManager (mte m')] ∧
  o_res o = Ok model ∧
  rows (o_state o) = rows st ++ [saved] ∧
  next_id (o_state o) = (next_id st + 1)%Z ∧
  heap (o_state o) !! model = Some (mkObj (obj_proto m) (saved ∪ obj_props m')).
Proof.
  intros Hm m' Hkey o saved.
  set (st0 := set_heap (<[model := m']> (heap st)) st).
  assert (Hm0 : heap st0 !! model = Some m').
  { simpl. apply list_lookup_insert_eq. by apply lookup_lt_Some in Hm. }
  assert (Hsave : manager_save DefaultManager (mte m') st0
                  = mkOutcome [ESave DefaultManager (mte m')]
                      (mkState (heap st0) (pk_col st) (rows st ++ [saved]) (next_id st + 1)%Z)
                      (Ok saved)).
  { unfold manager_save, mbind, M_bind, bind, emit, gets, modify, ret, mret, M_ret, prepend.
    simpl. rewrite Hkey. done. }
  destruct (saveInternal_run DefaultManager model m' st0 Hm0)
    as (st1 & saved' & Hsave' & Hheap & Hrun).
  rewrite (Hsave' DefaultManager) in Hsave. injection Hsave as -> ->.
  subst o. unfold SaveRepository.create.
  rewrite (bind_Ok _ _ _ _ _ _ (assign_Some _ _ _ _ _ Hm)), prepend_nil.
  fold m' st0. unfold SaveRepository.save.
  rewrite (bind_Ok _ _ _ _ _ _ Hrun). simpl.
  repeat split; try done.
  rewrite list_lookup_insert_eq; [done|].
  rewrite length_insert. by apply lookup_lt_Some in Hm.
Qed.

End save_repository.

(** *** The properties at the example inputs *)

Lemma create_in_place_witness :
  hooks article_repo = default_hooks ∧
  heap st_fresh !! 0 = Some fresh ∧
  o_res (create obj_props article_repo 0 None st_fresh) = Ok 0.
Proof.
  split; [reflexivity|]. split; [reflexivity|].
  destruct (create_in_place obj_props article_repo 0 fresh st_fresh eq_refl eq_refl)
    as (st1 & saved & _ & _ & _ & Hrun & _).
  rewrite Hrun. reflexivity.
Defined.

Lemma create_hook_failures_witness :
  heap st_fresh !! 0 = Some fresh ∧
  create obj_props vetoing_repo 0 None st_fresh
  = mkOutcome [EBeforeSave None fresh] st_fresh (Throw (Error "rejected")).
Proof.
  split; [reflexivity|].
  destruct (create_hook_failures obj_props vetoing_repo 0 fresh st_fresh eq_refl)
    as [Hveto _].
  apply (Hveto [] st_fresh (Error "rejected")). reflexivity.
Defined.

Lemma update_misconfigured_witness :
  heap st_patch !! 0 = Some patch ∧
  update_searchQuery article_meta new_CrudRepository has_dotted 1 patch
  = Ok (mkQuery {[ "id" := VNum 1 ]} ["tags"]) ∧
  select (mkQuery {[ "id" := VNum 1 ]} ["tags"]) st_patch = [row1] ∧
  modelClass new_CrudRepository = None ∧
  update obj_props article_meta new_CrudRepository has_dotted exponent_unused 1 0 None st_patch
  = mkOutcome [EGetOne (mkQuery {[ "id" := VNum 1 ]} ["tags"])] st_patch
              (Throw (Misconfigured new_CrudRepository)).
Proof.
  split; [reflexivity|]. split; [apply article_query|]. split; [apply article_selected|].
  split; [reflexivity|].
  apply (update_misconfigured obj_props article_meta new_CrudRepository has_dotted exponent_unused 1 0 patch _ row1 []
           None st_patch eq_refl article_query article_selected eq_refl).
Defined.

Lemma update_leaves_inputs_witness :
  hooks article_repo = default_hooks ∧
  heap st_patch !! 0 = Some patch ∧
  update_searchQuery article_meta article_repo has_dotted 1 patch
  = Ok (mkQuery {[ "id" := VNum 1 ]} ["tags"]) ∧
  select (mkQuery {[ "id" := VNum 1 ]} ["tags"]) st_patch = [row1] ∧
  modelClass article_repo = Some Article ∧
  heap (o_state (update obj_props article_meta article_repo has_dotted exponent_unused 1 0 None st_patch)) !! 0
  = Some patch.
Proof.
  split; [reflexivity|]. split; [reflexivity|]. split; [apply article_query|].
  split; [apply article_selected|]. split; [reflexivity|].
  destruct (update_leaves_inputs obj_props article_meta article_repo has_dotted exponent_unused 1 0 patch _ row1 []
              Article st_patch eq_refl eq_refl article_query article_selected eq_refl)
    as (st1 & saved & _ & _ & _ & Hmodel & _).
  exact Hmodel.
Defined.

Lemma update_beforeSave_veto_witness :
  heap st_patch !! 0 = Some patch ∧
  update_searchQuery article_meta vetoing_repo has_dotted 1 patch
  = Ok (mkQuery {[ "id" := VNum 1 ]} ["tags"]) ∧
  select (mkQuery {[ "id" := VNum 1 ]} ["tags"]) st_patch = [row1] ∧
  modelClass vetoing_repo = Some Article ∧
  o_res (update obj_props article_meta vetoing_repo has_dotted exponent_unused 1 0 None st_patch)
  = Throw (Error "rejected").
Proof.
  split; [reflexivity|]. split; [apply article_query|]. split; [apply article_selected|].
  split; [reflexivity|].
  destruct (update_beforeSave_veto obj_props article_meta vetoing_repo has_dotted exponent_unused 1 0 patch _ row1 []
              Article [] _ (Error "rejected") st_patch
              eq_refl article_query article_selected eq_refl eq_refl) as [Hrun _].
  rewrite Hrun. reflexivity.
Defined.

Lemma wrapper_decides_witness :
  (∀ A (callback : M A) st0, skip_callback A callback st0 = mkOutcome [] st0 (Ok tt)) ∧
  heap st_patch !! 0 = Some patch ∧
  update_searchQuery article_meta article_repo has_dotted 1 patch
  = Ok (mkQuery {[ "id" := VNum 1 ]} ["tags"]) ∧
  select (mkQuery {[ "id" := VNum 1 ]} ["tags"]) st_patch = [row1] ∧
  modelClass article_repo = Some Article ∧
  remove article_repo 1 (Some skip_callback) st_patch
  = mkOutcome [ETxBegin; ETxCommit] st_patch (Ok tt).
Proof.
  split; [reflexivity|]. split; [reflexivity|]. split; [apply article_query|].
  split; [apply article_selected|]. split; [reflexivity|].
  destruct (wrapper_decides obj_props article_meta article_repo has_dotted exponent_unused skip_callback 1 0 patch _
              row1 [] Article st_patch (λ _ _ _, eq_refl) eq_refl article_query
              article_selected eq_refl) as (_ & _ & Hremove).
  exact Hremove.
Defined.

Lemma remove_beforeDelete_veto_witness :
  beforeDelete (hooks vetoing_repo) 1 st_patch
  = mkOutcome [] st_patch (Throw (Error "rejected")) ∧
  rows (o_state (remove vetoing_repo 1 (Some run_callback) st_patch)) = [row1].
Proof.
  split; [reflexivity|].
  rewrite (remove_beforeDelete_veto vetoing_repo 1 [] st_patch (Error "rejected") st_patch
             eq_refl).
  reflexivity.
Defined.

Lemma remove_then_lookup_witness :
  pk_col st_patch = "id" ∧
  primaryKey article_repo = "id" ∧
  ¬ stored (primaryKey article_repo) 1 (o_state (SaveRepository.remove 1 None st_patch)).
Proof.
  split; [reflexivity|]. split; [reflexivity|].
  apply (remove_then_lookup article_repo 1 None st_patch eq_refl eq_refl (or_introl eq_refl)).
Defined.

Lemma save_update_upserts_witness :
  heap st_patch !! 0 = Some patch ∧
  o_res (SaveRepository.update obj_props article_repo 5 0 None st_patch) = Ok 0.
Proof.
  split; [reflexivity|].
  apply (save_update_upserts obj_props article_repo 5 0 patch st_patch eq_refl).
Defined.

Lemma save_create_generates_key_witness :
  heap st_preset !! 0 = Some preset ∧
  get (obj_props (mkObj Article (<["id" := VUndefined]> (obj_props preset)))) "id"
  = VUndefined ∧
  rows (o_state (SaveRepository.create obj_props article_repo 0 None st_preset))
  = [<["id" := VNum 1]> (<["id" := VUndefined]> (obj_props preset))].
Proof.
  split; [reflexivity|]. split; [reflexivity|].
  apply (save_create_generates_key obj_props article_repo 0 preset st_preset
           eq_refl eq_refl).
Defined.

Lemma fresh_1_not_stored : ¬ stored "id" 1 st_fresh.
Proof. intros (row & Hrow & _). by apply elem_of_nil in Hrow. Qed.

Lemma create_then_findOne_witness :
  hooks article_repo = default_hooks ∧
  heap st_fresh !! 0 = Some fresh ∧
  modelClass article_repo = Some Article ∧
  pk_col st_fresh = primaryKey article_repo ∧
  get (obj_props fresh) (primaryKey article_repo) = VUndefined ∧
  ¬ stored (primaryKey article_repo) (next_id st_fresh) st_fresh ∧
  stored (primaryKey article_repo) 1
    (o_state (create obj_props article_repo 0 None st_fresh)).
Proof.
  split; [reflexivity|]. split; [reflexivity|]. split; [reflexivity|].
  split; [reflexivity|]. split; [reflexivity|]. split; [apply fresh_1_not_stored|].
  apply (create_then_findOne obj_props article_repo 0 fresh Article st_fresh
           eq_refl eq_refl eq_refl eq_refl eq_refl fresh_1_not_stored).
Defined.

End RepositoryProperties.
